(** * The boss worker pool (boss/cloudvm/worker.go)

    A shallow embedding of the worker-pool controller: the four state
    maps, the ready queue, the reconciliation pass [updateCluster], the
    dispatcher [RunLambda] and the task report [StatusTasks].

    Conventions of the embedding.
    - A [*Worker] is a location in a heap of worker records; the state
      maps and the ready queue hold locations, so a write through one
      reference is seen through every other.
    - Every critical section of the source (the code between
      [pool.Lock()] and [pool.Unlock()]) is one step of the model; the
      mutex itself is not represented.
    - [go func() {...}()] records the goroutine in [spawned]; its body is
      a function of its own, run by whoever schedules it.
    - A receive on the empty queue, or a send on the full one, is the
      outcome [Blocked]; a nil dereference or [panic(err)] is [Panic].
    - Go's [int] is 64 bits wide and [int32] 32: arithmetic wraps.
    - Log output is not part of the model. *)

From Stdlib Require Import ZArith Lia Ascii String.
From stdpp Require Import gmap strings list fin_maps pretty.

Open Scope Z_scope.

(** ** Machine integers *)

Module Int.

Definition wrap (bits z : Z) : Z :=
  (z + 2 ^ (bits - 1)) mod 2 ^ bits - 2 ^ (bits - 1).

Definition min64 : Z := - 2 ^ 63.
Definition max64 : Z := 2 ^ 63 - 1.
Definition min32 : Z := - 2 ^ 31.
Definition max32 : Z := 2 ^ 31 - 1.

Definition fits64 (z : Z) : Prop := min64 <= z <= max64.
Definition fits32 (z : Z) : Prop := min32 <= z <= max32.

Definition add64 (a b : Z) : Z := wrap 64 (a + b).
Definition sub64 (a b : Z) : Z := wrap 64 (a - b).
Definition mul64 (a b : Z) : Z := wrap 64 (a * b).
Definition add32 (a b : Z) : Z := wrap 32 (a + b).

End Int.

Import Int.

(** ** Data model *)

Inductive WorkerState := STARTING | RUNNING | CLEANING | DESTROYING.

#[global] Instance WorkerState_eq_dec : EqDecision WorkerState.
Proof. solve_decision. Defined.

(** A pointer to a worker record. *)
Abbreviation loc := nat (only parsing).

Record Worker := mkWorker {
  workerId : string;
  workerIp : string;
  numTask : Z;            (* int32, updated atomically *)
  state : WorkerState
}.

Definition with_state (st : WorkerState) (wk : Worker) : Worker :=
  mkWorker (workerId wk) (workerIp wk) (numTask wk) st.

Definition with_numTask (n : Z) (wk : Worker) : Worker :=
  mkWorker (workerId wk) (workerIp wk) n (state wk).

(** Goroutines started by the pool and not yet run. *)
Inductive Goroutine :=
| GoStart (w : loc)     (* provision the instance, then [workerReady] *)
| GoDrain (w : loc)     (* wait for the tasks of a cleaning worker *)
| GoDestroy (w : loc).  (* delete the instance, then [workerGone] *)

(** The configuration read by the pool ([Conf]). *)
Record Config := mkConfig {
  Platform : string;
  Scaling : string;
  Worker_Cap : Z
}.

(** The pool, the heap of worker records it points into and the package
    level counters. [workers[STARTING]] .. [workers[DESTROYING]] are the
    four map fields. *)
Record State := mkState {
  nextId : Z;
  target : Z;
  starting : gmap string loc;
  running : gmap string loc;
  cleaning : gmap string loc;
  destroying : gmap string loc;
  queue : list loc;
  heap : list Worker;
  totalTask : Z;          (* int32 *)
  sumLatency : Z;         (* int64 *)
  nLatency : Z;           (* int64 *)
  spawned : list Goroutine
}.

Definition workers (s : State) (st : WorkerState) : gmap string loc :=
  match st with
  | STARTING => starting s
  | RUNNING => running s
  | CLEANING => cleaning s
  | DESTROYING => destroying s
  end.

Definition set_nextId (n : Z) (s : State) : State :=
  mkState n (target s) (starting s) (running s) (cleaning s) (destroying s)
    (queue s) (heap s) (totalTask s) (sumLatency s) (nLatency s) (spawned s).

Definition set_target (t : Z) (s : State) : State :=
  mkState (nextId s) t (starting s) (running s) (cleaning s) (destroying s)
    (queue s) (heap s) (totalTask s) (sumLatency s) (nLatency s) (spawned s).

Definition set_workers (st : WorkerState) (m : gmap string loc) (s : State) : State :=
  mkState (nextId s) (target s)
    (match st with STARTING => m | _ => starting s end)
    (match st with RUNNING => m | _ => running s end)
    (match st with CLEANING => m | _ => cleaning s end)
    (match st with DESTROYING => m | _ => destroying s end)
    (queue s) (heap s) (totalTask s) (sumLatency s) (nLatency s) (spawned s).

Definition set_queue (q : list loc) (s : State) : State :=
  mkState (nextId s) (target s) (starting s) (running s) (cleaning s) (destroying s)
    q (heap s) (totalTask s) (sumLatency s) (nLatency s) (spawned s).

Definition set_heap (h : list Worker) (s : State) : State :=
  mkState (nextId s) (target s) (starting s) (running s) (cleaning s) (destroying s)
    (queue s) h (totalTask s) (sumLatency s) (nLatency s) (spawned s).

Definition set_totalTask (n : Z) (s : State) : State :=
  mkState (nextId s) (target s) (starting s) (running s) (cleaning s) (destroying s)
    (queue s) (heap s) n (sumLatency s) (nLatency s) (spawned s).

Definition set_latency (sum n : Z) (s : State) : State :=
  mkState (nextId s) (target s) (starting s) (running s) (cleaning s) (destroying s)
    (queue s) (heap s) (totalTask s) sum n (spawned s).

Definition spawn (g : Goroutine) (s : State) : State :=
  mkState (nextId s) (target s) (starting s) (running s) (cleaning s) (destroying s)
    (queue s) (heap s) (totalTask s) (sumLatency s) (nLatency s) (spawned s ++ [g]).

(** [len(m)] as a Go [int]. *)
Definition len (m : gmap string loc) : Z := Z.of_nat (size m).

(** ** Outcomes and the state monad of the pool *)

Inductive Outcome (A : Type) :=
| Ret (a : A) (s : State)    (* the call returned *)
| Blocked (s : State)        (* waiting on the ready queue *)
| Panic (s : State)          (* nil dereference or panic(err) *)
| NoFuel.                    (* the recursion budget of the model ran out *)

Arguments Ret {A} a s.
Arguments Blocked {A} s.
Arguments Panic {A} s.
Arguments NoFuel {A}.

Definition M (A : Type) : Type := State -> Outcome A.

Definition ret {A} (a : A) : M A := fun s => Ret a s.

Definition bind {A B} (m : M A) (k : A -> M B) : M B :=
  fun s =>
    match m s with
    | Ret a s' => k a s'
    | Blocked s' => Blocked s'
    | Panic s' => Panic s'
    | NoFuel => NoFuel
    end.

Notation "'let!' x ':=' m 'in' k" := (bind m (fun x => k))
  (at level 10, x name, m at level 100, k at level 200).
Notation "m >>> k" := (bind m (fun _ => k))
  (at level 90, right associativity).

Definition modify (f : State -> State) : M unit := fun s => Ret tt (f s).

Definition gets {A} (f : State -> A) : M A := fun s => Ret (f s) s.

Definition panic {A} : M A := fun s => Panic s.

Fixpoint repeatM (n : nat) (m : M unit) : M unit :=
  match n with
  | O => ret tt
  | S n' => m >>> repeatM n' m
  end.

(** [*w]: reading through a pointer that points nowhere panics. *)
Definition deref (w : loc) : M Worker :=
  fun s =>
    match heap s !! w with
    | Some wk => Ret wk s
    | None => Panic s
    end.

(** [*w = wk]. *)
Definition store (w : loc) (wk : Worker) (s : State) : State :=
  set_heap (<[w := wk]> (heap s)) s.

(** [&Worker{...}]: a new record at a location not used before. *)
Definition alloc (wk : Worker) (s : State) : loc * State :=
  (length (heap s), set_heap (heap s ++ [wk]) s).

(** ** The channel of ready workers

    [pool.queue] is a buffered channel of capacity [Conf.Worker_Cap]: the
    list holds its content, oldest first. *)

Definition recv : M loc :=
  fun s =>
    match queue s with
    | [] => Blocked s
    | w :: q => Ret w (set_queue q s)
    end.

Definition send (cap : Z) (w : loc) : M unit :=
  fun s =>
    if Z.of_nat (length (queue s)) <? cap
    then Ret tt (set_queue (queue s ++ [w]) s)
    else Blocked s.

(** ** The response writer of net/http

    The first [WriteHeader] fixes the status, later ones are ignored; a
    [Write] before any [WriteHeader] sends status 200. *)

Record ResponseWriter := mkResponse {
  status : option Z;
  body : string
}.

Definition newResponse : ResponseWriter := mkResponse None "".

Definition WriteHeader (code : Z) (w : ResponseWriter) : ResponseWriter :=
  match status w with
  | None => mkResponse (Some code) (body w)
  | Some _ => w
  end.

Definition Write (b : string) (w : ResponseWriter) : ResponseWriter :=
  mkResponse (Some (default 200 (status w))) (body w +:+ b).

(** The line feed of the Go string literals. *)
Definition LF : string := String "010"%char EmptyString.

(** [http.Error(w, msg, code)]. *)
Definition http_Error (msg : string) (code : Z) (w : ResponseWriter) : ResponseWriter :=
  Write (msg +:+ LF) (WriteHeader code w).

Definition StatusOK : Z := 200.
Definition StatusInternalServerError : Z := 500.
Definition StatusBadGateway : Z := 502.

(** What the world answers during one request. *)
Inductive ClientResult :=
| ClientResp (respBody : string)   (* the worker answered *)
| ClientErr (msg : string).        (* client.Do failed *)

Record Env := mkEnv {
  client_Do : string -> ClientResult;  (* by host *)
  write_ok : bool;                     (* w.Write returns no error *)
  elapsed : Z                          (* time.Since(starttime).Milliseconds() *)
}.

(** forward request to worker; the second component is [err != nil]. *)
Definition forwardTask (env : Env) (w : ResponseWriter) (workerIp : string)
  : ResponseWriter * bool :=
  let host := workerIp +:+ ":" +:+ "5000" in
  match client_Do env host with
  | ClientErr msg => (http_Error msg StatusBadGateway w, true)
  | ClientResp b => (Write b w, false)
  end.

(** What a dispatch did, beside the state change. *)
Record Dispatch := mkDispatch {
  resp : ResponseWriter;
  selected : option loc;        (* the worker taken from the queue *)
  forwardedTo : option string   (* the worker ip the request went to *)
}.

(** ** The pool *)

Section Pool.

Variable Conf : Config.

(** [pool.NewWorker(nextId)] is a method of the platform adapters, which
    are outside these sources: the record it builds is a parameter. *)
Variable NewWorker : Z -> Worker.

(** Modelled from the spec: the threshold policy behind [pool.Scale] is
    missing from the sources. Its contract reads a snapshot of the tasks
    in flight and of the number of Running+Starting workers and hands a
    new target to the pool; [scale_rule] is the rule, left open. *)
Variable scale_rule : Z -> Z -> Z.

(** The order in which [range] walks a map, which Go leaves open. *)
Variable range_order : gmap string loc -> list (string * loc).

(** return number of workers in the pool *)
Definition Size (s : State) : Z :=
  foldl (fun size st => add64 size (len (workers s st))) 0
    [STARTING; RUNNING; CLEANING; DESTROYING].

(** The three statements every transition shares:
    [worker.state = to; delete(pool.workers[from], id);
     pool.workers[to][id] = worker]. *)
Definition move (from to : WorkerState) (w : loc) (wk : Worker) (s : State) : State :=
  let s1 := store w (with_state to wk) s in
  let s2 := set_workers from (delete (workerId wk) (workers s1 from)) s1 in
  set_workers to (<[workerId wk := w]> (workers s2 to)) s2.

(** add a new worker to the cluster (the part before the goroutine) *)
Definition startNewWorker (s : State) : State :=
  let id := nextId s in
  let s1 := set_nextId (add64 (nextId s) 1) s in
  let '(w, s2) := alloc (with_state STARTING (NewWorker id)) s1 in
  let s3 := set_workers STARTING (<[workerId (NewWorker id) := w]> (starting s2)) s2 in
  spawn (GoStart w) s3.

(** The end of the goroutine of [startNewWorker], once the instance is
    up: change state starting -> running, push the worker on the queue
    and reconcile. *)
Definition workerReady (updateCluster : M unit) (w : loc) : M unit :=
  let! wk := deref w in
  modify (move STARTING RUNNING w wk) >>>
  send (Worker_Cap Conf) w >>>
  updateCluster.

(** recover cleaning worker *)
Definition recoverWorker (updateCluster : M unit) (w : loc) : M unit :=
  let! wk := deref w in
  modify (move CLEANING RUNNING w wk) >>>
  updateCluster.

(** clean the worker (the part before the goroutine) *)
Definition cleanWorker (w : loc) : M unit :=
  let! wk := deref w in
  modify (move RUNNING CLEANING w wk) >>>
  modify (spawn (GoDrain w)).

(** destroy a worker from the cluster (the part before the goroutine) *)
Definition detroyWorker (w : loc) : M unit :=
  let! wk := deref w in
  modify (move CLEANING DESTROYING w wk) >>>
  modify (spawn (GoDestroy w)).

(** The end of the goroutine of [detroyWorker], once the instance is
    deleted: remove from cluster and reconcile. *)
Definition workerGone (updateCluster : M unit) (w : loc) : M unit :=
  let! wk := deref w in
  modify (fun s => set_workers DESTROYING (delete (workerId wk) (destroying s)) s) >>>
  updateCluster.

(** One turn of the goroutine of [cleanWorker]: the test of the loop
    [for worker.numTask > 0], then either the body of the loop or the
    call after it. *)
Inductive DrainStep :=
| DrainExit        (* return: the worker is recovered *)
| DrainSleep       (* time.Sleep(time.Second), then the next turn *)
| DrainDestroyed.  (* the loop ended and detroyWorker was called *)

Definition drainPoll (w : loc) : M DrainStep :=
  let! wk := deref w in
  if 0 <? numTask wk then
    let! c := gets cleaning in
    match c !! workerId wk with
    | None => ret DrainExit
    | Some _ => ret DrainSleep
    end
  else
    detroyWorker w >>> ret DrainDestroyed.

Definition scaleSize (s : State) : Z := sub64 (target s) (Size s).

Definition toBeClean (scale : Z) (s : State) : Z :=
  sub64 (sub64 (sub64 (mul64 (-1) scale) (len (cleaning s))) (len (destroying s)))
    (len (starting s)).

Definition toBeRecover (s : State) : Z :=
  sub64 (sub64 (target s) (len (starting s))) (len (running s)).

(** [for _, worker := range pool.workers[CLEANING]] with the pool
    unlocked around [recoverWorker]. The entries are those of the map
    when the loop starts; one whose key is deleted before the loop
    reaches it is not produced, as Go specifies, and the worker produced
    for a key is the one the map holds at that moment. Keys created
    while the loop runs are not visited (Go allows either). *)
Fixpoint recoverLoop (recover : loc -> M unit) (entries : list (string * loc))
    (n : Z) : M unit :=
  match entries with
  | [] => ret tt
  | (id, _) :: rest =>
      let! c := gets cleaning in
      match c !! id with
      | None => recoverLoop recover rest n
      | Some w =>
          if n <=? 0 then ret tt
          else recover w >>> recoverLoop recover rest (sub64 n 1)
      end
  end.

(** called when worker is been evicted from cleaning or destroying map *)
Fixpoint updateCluster (fuel : nat) : M unit :=
  match fuel with
  | O => fun _ => NoFuel
  | S fuel' =>
      let! scale := gets scaleSize in
      if 0 <? scale then
        repeatM (Z.to_nat scale) (modify startNewWorker)
      else
        let! clean := gets (toBeClean scale) in
        if 0 <? clean then
          repeatM (Z.to_nat clean) (let! worker := recv in cleanWorker worker) >>>
          updateCluster fuel'
        else
          let! rec := gets toBeRecover in
          if 0 <? rec then
            let! c := gets cleaning in
            recoverLoop (recoverWorker (updateCluster fuel')) (range_order c) rec
          else ret tt
  end.

(** renamed Scale() -> SetTarget() *)
Definition SetTarget (fuel : nat) (t : Z) : M unit :=
  modify (set_target t) >>> updateCluster fuel.

(** Modelled from the spec: [pool.Scale(pool)], whose source is missing;
    it reads the two inputs the spec names and sets the target. *)
Definition Scale (fuel : nat) : M unit :=
  let! t := gets (fun s =>
    scale_rule (totalTask s) (add64 (len (running s)) (len (starting s)))) in
  SetTarget fuel t.

(** force kill workers *)
Definition Close (fuel : nat) : M unit := SetTarget fuel 0.

(** [atomic.AddInt32(&worker.numTask, delta)] *)
Definition atomic_AddNumTask (w : loc) (delta : Z) : M unit :=
  let! wk := deref w in
  modify (store w (with_numTask (add32 (numTask wk) delta) wk)).

(** [atomic.AddInt32(&totalTask, delta)] *)
Definition atomic_AddTotalTask (delta : Z) : M unit :=
  modify (fun s => set_totalTask (add32 (totalTask s) delta) s).

(** [atomic.AddInt64(&sumLatency, latency); atomic.AddInt64(&nLatency, 1)] *)
Definition recordLatency (latency : Z) : M unit :=
  modify (fun s =>
    set_latency (add64 (sumLatency s) latency) (add64 (nLatency s) 1) s).

(** [len(pool.workers[STARTING])+len(pool.workers[RUNNING])] *)
Definition numActive (s : State) : Z :=
  add64 (len (starting s)) (len (running s)).

(** The test that opens [RunLambda]: the response writer after it and
    whether the handler returns there. *)
Definition noActiveWorker (w : ResponseWriter) (s : State) : ResponseWriter * bool :=
  if numActive s =? 0 then
    let w1 := WriteHeader StatusInternalServerError w in
    if decide (Scaling Conf = "manual")
    then (Write ("no active worker" +:+ LF) w1, true)
    else (w1, false)
  else (w, false).

(** [worker := <-pool.queue; pool.queue <- worker] and the two
    increments that follow. *)
Definition acquire : M loc :=
  let! worker := recv in
  send (Worker_Cap Conf) worker >>>
  atomic_AddNumTask worker 1 >>>
  atomic_AddTotalTask 1 >>>
  ret worker.

(** The answer: made up on the mock platform, forwarded otherwise. *)
Definition respond (env : Env) (w : ResponseWriter) (worker : loc) : M Dispatch :=
  let! wk := deref worker in
  if decide (Platform Conf = "mock") then
    let s := "hello from " +:+ workerId wk +:+ LF in
    let w1 := Write s (WriteHeader StatusOK w) in
    if write_ok env
    then ret (mkDispatch w1 (Some worker) None)
    else panic
  else
    let '(w1, _) := forwardTask env w (workerIp wk) in
    ret (mkDispatch w1 (Some worker) (Some (workerIp wk))).

(** The two decrements and the latency record that close [RunLambda]. *)
Definition release (env : Env) (worker : loc) : M unit :=
  atomic_AddNumTask worker (-1) >>>
  atomic_AddTotalTask (-1) >>>
  recordLatency (elapsed env).

(** run lambda function *)
Definition RunLambda (fuel : nat) (env : Env) (w : ResponseWriter) : M Dispatch :=
  let! guard := gets (noActiveWorker w) in
  let '(w1, stop) := guard in
  if (stop : bool) then ret (mkDispatch w1 None None)
  else
    let! worker := acquire in
    (if decide (Scaling Conf = "auto") then Scale fuel else ret tt) >>>
    let! d := respond env w1 worker in
    release env worker >>>
    ret d.

(** Requests served one after the other. *)
Fixpoint serveAll (fuel : nat) (envs : list Env) : M (list Dispatch) :=
  match envs with
  | [] => ret []
  | env :: rest =>
      let! d := RunLambda fuel env newResponse in
      let! ds := serveAll fuel rest in
      ret (d :: ds)
  end.

(** [int(worker.numTask)] through a pointer; [None] is the nil panic. *)
Definition numTaskAt (s : State) (w : loc) : option Z :=
  numTask <$> heap s !! w.

(** [for _, worker := range m { sumTask += int(worker.numTask) }] *)
Definition sumTasks (s : State) (m : gmap string loc) : option Z :=
  map_fold (fun _ w acc => a ← acc; n ← numTaskAt s w; Some (add64 a n)) (Some 0) m.

(** [for workerId, worker := range m { output[workerId] = int(worker.numTask) }] *)
Definition reportWorkers (s : State) (m : gmap string loc)
    (output : option (gmap string Z)) : option (gmap string Z) :=
  map_fold (fun id w acc => out ← acc; n ← numTaskAt s w; Some (<[id := n]> out))
    output m.

(** return wokers' id and number of tasks *)
Definition StatusTasks (s : State) : option (gmap string Z) :=
  let output : gmap string Z := ∅ in
  let output := <["task/worker" := 0]> output in
  let output := <["total tasks" := totalTask s]> output in
  let numWorker := add64 (len (running s)) (len (starting s)) in
  output ←
    (if 0 <? numWorker then
       sumTask ← sumTasks s (running s);
       Some (<["task/worker" := Z.quot sumTask numWorker]> output)
     else Some output);
  foldl (fun out st => reportWorkers s (workers s st) out) (Some output)
    [STARTING; RUNNING; CLEANING; DESTROYING].

(** return status of cluster *)
Definition StatusCluster (s : State) : gmap string Z :=
  <["destroying" := len (destroying s)]>
    (<["cleaning" := len (cleaning s)]>
      (<["running" := len (running s)]>
        (<["starting" := len (starting s)]> ∅))).

End Pool.

(** * Vocabulary of the statements *)

(** ** What no pool operation touches

    [kept s s']: the task counters, the latency record and the identity
    and load of every worker record of [s] are the same in [s']. *)

Definition kept (s s' : State) : Prop :=
  totalTask s' = totalTask s /\
  sumLatency s' = sumLatency s /\
  nLatency s' = nLatency s /\
  forall l wk, heap s !! l = Some wk ->
    exists wk', heap s' !! l = Some wk' /\
      numTask wk' = numTask wk /\
      workerId wk' = workerId wk /\
      workerIp wk' = workerIp wk.

(** [keeps m]: every run of [m] that returns relates its two states by
    [kept]. *)
Definition keeps {A} (m : M A) : Prop :=
  forall s a s', m s = Ret a s' -> kept s s'.

(** The queue moved one place: the head goes to the tail. *)
Definition rot1 (q : list loc) : list loc :=
  match q with
  | [] => []
  | w :: rest => rest ++ [w]
  end.

(** The number of workers in the four maps, as a number. *)
Definition total (s : State) : Z :=
  len (starting s) + len (running s) + len (cleaning s) + len (destroying s).

(** The id and the record of the [i]-th worker minted from [s]. *)
Definition mintedId (NewWorker : Z -> Worker) (s : State) (i : nat) : string :=
  workerId (NewWorker (nextId s + Z.of_nat i)).

Definition mintedWorker (NewWorker : Z -> Worker) (s : State) (i : nat) : Worker :=
  with_state STARTING (NewWorker (nextId s + Z.of_nat i)).

(** Every pointer in a map points to a record. *)
Definition closed (s : State) (m : gmap string loc) : Prop :=
  forall id w, m !! id = Some w -> is_Some (heap s !! w).

(** The sum of [numTask] over a map, as a number. *)
Definition sumNumTask (s : State) (m : gmap string loc) : Z :=
  foldr (fun '(_, w) acc => acc + default 0 (numTaskAt s w)) 0 (map_to_list m).

(** * Concrete pools *)

(** The mock adapter names its workers after the id counter. *)
Definition mockWorker (n : Z) : Worker :=
  mkWorker ("worker-" +:+ pretty n) "" 0 STARTING.

(** One order [range] may follow. *)
Definition keyOrder (m : gmap string loc) : list (string * loc) := map_to_list m.

Definition rule_one : Z -> Z -> Z := fun _ _ => 1.

(** A rule that asks for no worker at all. *)
Definition rule_zero : Z -> Z -> Z := fun _ _ => 0.

Definition conf_manual_mock : Config := mkConfig "mock" "manual" 8.
Definition conf_auto_mock : Config := mkConfig "mock" "auto" 8.
Definition conf_manual_gcp : Config := mkConfig "gcp" "manual" 8.

Definition env_up : Env := mkEnv (fun _ => ClientResp "ok") true 5.
Definition env_down : Env := mkEnv (fun _ => ClientErr "connection refused") true 5.
Definition env_unwritable : Env := mkEnv (fun _ => ClientResp "ok") false 5.

Definition worker1 : Worker := mkWorker "worker-1" "10.0.0.1" 3 RUNNING.
Definition worker2 : Worker := mkWorker "worker-2" "10.0.0.2" 0 RUNNING.
Definition worker3 : Worker := mkWorker "worker-3" "10.0.0.3" 0 RUNNING.

(** Target 2 and no worker yet. *)
Definition pool_empty : State :=
  mkState 1 2 ∅ ∅ ∅ ∅ [] [] 0 0 0 [].

(** One Running worker with three tasks in flight. *)
Definition pool_one : State :=
  mkState 2 1 ∅ {[ "worker-1" := 0%nat ]} ∅ ∅ [0%nat] [worker1] 3 0 0 [].

(** Two Running workers and target 1. *)
Definition pool_two : State :=
  mkState 3 1 ∅ {[ "worker-1" := 0%nat; "worker-2" := 1%nat ]} ∅ ∅
    [0%nat; 1%nat] [worker1; worker2] 3 0 0 [].

(** Three Running workers, all in the queue, target 3. *)
Definition pool_three : State :=
  mkState 4 3 ∅
    {[ "worker-1" := 0%nat; "worker-2" := 1%nat; "worker-3" := 2%nat ]} ∅ ∅
    [0%nat; 1%nat; 2%nat] [worker1; worker2; worker3] 3 0 0 [].

(** No Starting and no Running worker; the queue is empty. *)
Definition pool_idle : State :=
  mkState 2 0 ∅ ∅ ∅ ∅ [] [] 0 0 0 [].

(** No Starting and no Running worker at the time of the test, with a
    worker on the queue by the time of the receive. *)
Definition pool_idle_ready : State :=
  mkState 2 1 ∅ ∅ ∅ ∅ [0%nat] [with_numTask 0 worker1] 0 0 0 [].

(** One idle Running worker, in the queue, target 1. *)
Definition pool_one_idle : State :=
  mkState 2 1 ∅ {[ "worker-1" := 0%nat ]} ∅ ∅ [0%nat]
    [with_numTask 0 worker1] 0 0 0 [].

(** Target 1; the only worker is in Cleaning, its drain goroutine
    pending, and it left the queue when it was picked for cleaning. *)
Definition pool_cleaning : State :=
  mkState 2 1 ∅ ∅ {[ "worker-1" := 0%nat ]} ∅ []
    [with_state CLEANING (with_numTask 0 worker1)] 0 0 0 [GoDrain 0%nat].

(** Target 1; the only worker is in Starting, its start goroutine
    pending: the pool the constructor leaves on the mock platform with
    auto scaling. *)
Definition pool_starting : State :=
  mkState 2 1 {[ "worker-1" := 0%nat ]} ∅ ∅ ∅ []
    [with_state STARTING (mockWorker 1)] 0 0 0 [GoStart 0%nat].

(** Target 0; the only worker is in Destroying, its destroy goroutine
    pending. *)
Definition pool_destroying : State :=
  mkState 2 0 ∅ ∅ ∅ {[ "worker-1" := 0%nat ]} []
    [with_state DESTROYING (with_numTask 0 worker1)] 0 0 0 [GoDestroy 0%nat].

(** A platform name the constructor does not know. *)
Definition conf_unknown : Config := mkConfig "aws" "manual" 8.

(** The third command succeeds. *)
Definition ssh_third : nat -> list string -> bool := fun n _ => (2 <=? n)%nat.

(** A lambda manager that answers with the name of the lambda. *)
Definition echoLambda : string -> ResponseWriter -> ResponseWriter :=
  fun img w => Write img (WriteHeader StatusOK w).

(** Target 2 and three workers in Cleaning. *)
Definition pool_cleaning3 : State :=
  mkState 4 2 ∅ ∅
    {[ "worker-1" := 0%nat; "worker-2" := 1%nat; "worker-3" := 2%nat ]} ∅ []
    [with_state CLEANING worker1; with_state CLEANING worker2;
     with_state CLEANING worker3] 3 0 0 [].


(** * The rest of the controller and the worker front end *)

Section Startup.

Variable Conf : Config.
Variable NewWorker : Z -> Worker.
Variable range_order : gmap string loc -> list (string * loc).

(** The pool as [NewWorkerPool] leaves it before the scaling mode is
    looked at: [nextId] 1, four empty maps, an empty queue. The package
    counters are at their initial value 0. [target0] is the [target]
    field as the platform's constructor leaves it (those constructors
    are outside these sources). *)
Definition newPool (target0 : Z) : State :=
  mkState 1 target0 ∅ ∅ ∅ ∅ [] [] 0 0 0 [].

(** [NewWorkerPool]: [pool] stays nil when [Conf.Platform] is none of
    the four names, and [pool.nextId = 1] then panics; [make(chan
    *Worker, n)] panics on a negative [n]; with auto scaling the
    constructor ends with [pool.SetTarget(1)]. *)
Definition NewWorkerPool (fuel : nat) (target0 : Z) : Outcome unit :=
  if bool_decide (Platform Conf ∈ ["gcp"; "azure"; "DO"; "mock"]) then
    if Worker_Cap Conf <? 0 then Panic (newPool target0)
    else if decide (Scaling Conf = "auto")
         then SetTarget NewWorker range_order fuel 1 (newPool target0)
         else Ret tt (newPool target0)
  else Panic (newPool target0).

End Startup.

(** ** ssh to worker and run command *)

(** What [runCmd] did: the argument vectors of the ssh commands it ran,
    the seconds it slept between them, and whether it ended in
    [panic(err)]. *)
Record CmdRun := mkCmdRun {
  calls : list (list string);
  slept : Z;
  panicked : bool
}.

(** The loop [for tries > 0]: [ssh n argv] tells whether the [n]-th
    command of the process succeeds. *)
Fixpoint sshLoop (ssh : nat -> list string -> bool) (argv : list string)
    (tries : nat) (n : nat) : CmdRun :=
  match tries with
  | O => mkCmdRun [] 0 false
  | S tries' =>
      if ssh n argv then mkCmdRun [argv] 0 false
      else
        match tries' with
        | O => mkCmdRun [argv] 0 true
        | S _ =>
            let r := sshLoop ssh argv tries' (S n) in
            mkCmdRun (argv :: calls r) (5 + slept r) (panicked r)
        end
  end.

Definition sshArgv (cwd user workerIp command : string) : list string :=
  ["ssh"; user +:+ "@" +:+ workerIp; "-o"; "StrictHostKeyChecking=no"; "-C";
   "cd " +:+ cwd +:+ "; " +:+ command].

(** [getwd] and [current] are [os.Getwd()] and [user.Current()], [None]
    when they return an error. *)
Definition runCmd (getwd current : option string) (ssh : nat -> list string -> bool)
    (wk : Worker) (command : string) : CmdRun :=
  match getwd with
  | None => mkCmdRun [] 0 true
  | Some cwd =>
      match current with
      | None => mkCmdRun [] 0 true
      | Some user => sshLoop ssh (sshArgv cwd user (workerIp wk) command) 10 0
      end
  end.

(** ** The worker's front end (server/lambdaServer.go) *)

Definition slash : ascii := "/"%char.

(** [strings.HasPrefix(path, "/")] then [path = path[1:]] *)
Definition trimLeadingSlash (path : string) : string :=
  match path with
  | String c rest => if Ascii.eqb c slash then rest else path
  | EmptyString => path
  end.

(** [strings.HasSuffix(path, "/")] *)
Fixpoint hasSuffixSlash (path : string) : bool :=
  match path with
  | EmptyString => false
  | String c EmptyString => Ascii.eqb c slash
  | String _ rest => hasSuffixSlash rest
  end.

(** [path[:len(path)-1]] *)
Fixpoint dropLast (path : string) : string :=
  match path with
  | EmptyString => EmptyString
  | String _ EmptyString => EmptyString
  | String c rest => String c (dropLast rest)
  end.

Definition trimTrailingSlash (path : string) : string :=
  if hasSuffixSlash path then dropLast path else path.

(** [strings.Split(path, "/")] *)
Fixpoint splitSlash (path : string) : list string :=
  match path with
  | EmptyString => [EmptyString]
  | String c rest =>
      if Ascii.eqb c slash then EmptyString :: splitSlash rest
      else
        match splitSlash rest with
        | x :: xs => String c x :: xs
        | [] => [String c EmptyString]
        end
  end.

(** getUrlComponents parses request URL into its "/" delimated components *)
Definition getUrlComponents (path : string) : list string :=
  splitSlash (trimTrailingSlash (trimLeadingSlash path)).

Definition StatusBadRequest : Z := 400.

(** [Invoke]: [invokeLambda img w] stands for
    [s.lambdaMgr.Get(img).Invoke(w, r)], code of another package. *)
Definition Invoke (invokeLambda : string -> ResponseWriter -> ResponseWriter)
    (path : string) (w : ResponseWriter) : ResponseWriter :=
  let urlParts := getUrlComponents path in
  if (length urlParts <? 2)%nat then
    Write "expected invocation format: /run/<lambda-name>"
      (WriteHeader StatusBadRequest w)
  else
    match urlParts !! 1%nat with
    | Some img => invokeLambda img w
    | None => w
    end.

(** * Vocabulary of the pool invariant *)

(** A worker id is in at most one of the four maps. *)
Definition exclusive (s : State) : Prop :=
  forall id st st',
    is_Some (workers s st !! id) -> is_Some (workers s st' !! id) -> st = st'.

(** A map entry points to a record that carries the entry's id and the
    map's state. *)
Definition keyed (s : State) : Prop :=
  forall st id w, workers s st !! id = Some w ->
    exists wk, heap s !! w = Some wk /\ workerId wk = id /\ state wk = st.

(** The ready queue holds no worker twice and only workers that the
    Running map lists under their id. *)
Definition queued (s : State) : Prop :=
  NoDup (queue s) /\
  forall w, w ∈ queue s ->
    exists wk, heap s !! w = Some wk /\ running s !! workerId wk = Some w.

Definition consistent (s : State) : Prop :=
  exclusive s /\ keyed s /\ queued s.

(** The invariant as a test that runs. *)
Definition entry_ok (s : State) (st : WorkerState) (entry : string * loc) : bool :=
  match heap s !! entry.2 with
  | Some wk =>
      bool_decide (workerId wk = entry.1) && bool_decide (state wk = st) &&
      forallb (fun st' => bool_decide (st' = st) ||
                          bool_decide (workers s st' !! entry.1 = None))
        [STARTING; RUNNING; CLEANING; DESTROYING]
  | None => false
  end.

Definition queued_ok (s : State) (w : loc) : bool :=
  match heap s !! w with
  | Some wk => bool_decide (running s !! workerId wk = Some w)
  | None => false
  end.

Definition consistentb (s : State) : bool :=
  forallb (fun st => forallb (entry_ok s st) (map_to_list (workers s st)))
    [STARTING; RUNNING; CLEANING; DESTROYING] &&
  bool_decide (NoDup (queue s)) &&
  forallb (queued_ok s) (queue s).

(** [reshuffled s0 s]: [s] is consistent and has the target, the id
    counter, the Starting and Destroying maps and the number of workers
    of [s0]; workers may have gone between Running and Cleaning. *)
Definition reshuffled (s0 s : State) : Prop :=
  consistent s /\
  target s = target s0 /\ nextId s = nextId s0 /\
  starting s = starting s0 /\ destroying s = destroying s0 /\
  total s = total s0.

(** The worker a report shows for an id: the last of the four maps that
    lists the id wins. *)
Definition shownWorker (s : State) (id : string) : option loc :=
  match destroying s !! id with
  | Some w => Some w
  | None =>
      match cleaning s !! id with
      | Some w => Some w
      | None =>
          match running s !! id with
          | Some w => Some w
          | None => starting s !! id
          end
      end
  end.

(** The number of "/" in a string. *)
Fixpoint countSlash (path : string) : nat :=
  match path with
  | EmptyString => O
  | String c rest => if Ascii.eqb c slash then S (countSlash rest) else countSlash rest
  end.

(** The components joined again with "/". *)
Fixpoint joinSlash (parts : list string) : string :=
  match parts with
  | [] => EmptyString
  | [x] => x
  | x :: rest => x +:+ String slash (joinSlash rest)
  end.

(** * Properties *)

(** ** Machine integers *)

Lemma wrap64_fits z : fits64 z -> wrap 64 z = z.
Proof.
  unfold fits64, min64, max64, wrap. intros H.
  change (2 ^ (64 - 1)) with 9223372036854775808.
  change (2 ^ 64) with 18446744073709551616.
  change (2 ^ 63) with 9223372036854775808 in H.
  rewrite Z.mod_small; lia.
Qed.

Lemma wrap32_fits z : fits32 z -> wrap 32 z = z.
Proof.
  unfold fits32, min32, max32, wrap. intros H.
  change (2 ^ (32 - 1)) with 2147483648.
  change (2 ^ 32) with 4294967296.
  change (2 ^ 31) with 2147483648 in H.
  rewrite Z.mod_small; lia.
Qed.

Lemma wrap_wrap_add bits a b : 0 < bits -> wrap bits (wrap bits a + b) = wrap bits (a + b).
Proof.
  intros Hb. unfold wrap.
  assert (0 < 2 ^ bits) by (apply Z.pow_pos_nonneg; lia).
  f_equal.
  replace ((a + 2 ^ (bits - 1)) mod 2 ^ bits - 2 ^ (bits - 1) + b + 2 ^ (bits - 1))
    with ((a + 2 ^ (bits - 1)) mod 2 ^ bits + b) by lia.
  rewrite Zplus_mod_idemp_l. f_equal. lia.
Qed.

Lemma add32_inc_dec n : fits32 n -> add32 (add32 n 1) (-1) = n.
Proof.
  intros H. unfold add32. rewrite wrap_wrap_add by lia.
  replace (n + 1 + -1) with n by lia. by apply wrap32_fits.
Qed.

Lemma add64_fits a b : fits64 (a + b) -> add64 a b = a + b.
Proof. apply wrap64_fits. Qed.

Lemma sub64_fits a b : fits64 (a - b) -> sub64 a b = a - b.
Proof. apply wrap64_fits. Qed.

Lemma mul64_fits a b : fits64 (a * b) -> mul64 a b = a * b.
Proof. apply wrap64_fits. Qed.


(** ** The monad *)

Lemma bind_Ret {A B} (m : M A) (k : A -> M B) s a s' :
  m s = Ret a s' -> bind m k s = k a s'.
Proof. unfold bind. by intros ->. Qed.

Lemma bind_Ret_inv {A B} (m : M A) (k : A -> M B) s b s'' :
  bind m k s = Ret b s'' -> exists a s', m s = Ret a s' /\ k a s' = Ret b s''.
Proof.
  unfold bind. destruct (m s) as [a s'| | |]; try discriminate.
  intros H. by exists a, s'.
Qed.

Lemma repeatM_modify n f s :
  repeatM n (modify f) s = Ret tt (Nat.iter n f s).
Proof.
  revert s. induction n as [|n IH]; intros s; [done|].
  cbn [repeatM]. rewrite (bind_Ret _ _ s tt (f s)) by done.
  rewrite IH. f_equal. symmetry. apply Nat.iter_succ_r.
Qed.

Lemma deref_Ret w s wk s' :
  deref w s = Ret wk s' -> heap s !! w = Some wk /\ s' = s.
Proof.
  unfold deref. destruct (heap s !! w); [|discriminate].
  intros H. injection H as -> ->. done.
Qed.

(** Splits a hypothesis [bind m k s = Ret b s'] into its two runs. *)
Ltac bind_inv H :=
  let a := fresh "a" in
  let s := fresh "s" in
  let H1 := fresh H "a" in
  apply bind_Ret_inv in H as (a & s & H1 & H).

Ltac ret_inv H :=
  first [ injection H as ? ? | injection H as ? ]; subst.

Lemma kept_refl s : kept s s.
Proof. repeat split. intros l wk H. by exists wk. Qed.

Lemma kept_trans s1 s2 s3 : kept s1 s2 -> kept s2 s3 -> kept s1 s3.
Proof.
  intros (T1 & L1 & N1 & H1) (T2 & L2 & N2 & H2).
  repeat split; [congruence..|].
  intros l wk Hl. destruct (H1 l wk Hl) as (wk2 & Hl2 & ? & ? & ?).
  destruct (H2 l wk2 Hl2) as (wk3 & Hl3 & ? & ? & ?).
  exists wk3. repeat split; congruence.
Qed.

(** A change of fields other than the heap and the counters. *)
Lemma kept_fields s s' :
  heap s' = heap s -> totalTask s' = totalTask s ->
  sumLatency s' = sumLatency s -> nLatency s' = nLatency s ->
  kept s s'.
Proof.
  intros Hh ? ? ?. repeat split; [done..|].
  intros l wk Hl. exists wk. by rewrite Hh.
Qed.

Lemma kept_store_state s w wk st :
  heap s !! w = Some wk -> kept s (store w (with_state st wk) s).
Proof.
  intros Hw. repeat split. intros l wk0 Hl. cbn.
  destruct (decide (l = w)) as [->|Hne].
  - exists (with_state st wk). rewrite list_lookup_insert_eq.
    + assert (wk0 = wk) by congruence. by subst.
    + by eapply lookup_lt_Some.
  - exists wk0. by rewrite list_lookup_insert_ne.
Qed.

Lemma kept_move s from to w wk :
  heap s !! w = Some wk -> kept s (move from to w wk s).
Proof.
  intros Hw. eapply kept_trans; [exact (kept_store_state s w wk to Hw)|].
  unfold move. by apply kept_fields.
Qed.

Lemma kept_startNewWorker NewWorker s : kept s (startNewWorker NewWorker s).
Proof.
  repeat split. intros l wk Hl. exists wk. cbn.
  by rewrite lookup_app_l by (by eapply lookup_lt_Some).
Qed.

Lemma kept_iter_startNewWorker NewWorker n s :
  kept s (Nat.iter n (startNewWorker NewWorker) s).
Proof.
  induction n as [|n IH]; [apply kept_refl|].
  cbn [Nat.iter]. eapply kept_trans; [exact IH|apply kept_startNewWorker].
Qed.

Lemma keeps_ret {A} (a : A) : keeps (ret a).
Proof. intros s b s' H. ret_inv H. apply kept_refl. Qed.

Lemma keeps_gets {A} (f : State -> A) : keeps (gets f).
Proof. intros s b s' H. ret_inv H. apply kept_refl. Qed.

Lemma keeps_bind {A B} (m : M A) (k : A -> M B) :
  keeps m -> (forall a, keeps (k a)) -> keeps (bind m k).
Proof.
  intros Hm Hk s b s' H. bind_inv H.
  eapply kept_trans; [by eapply Hm|by eapply Hk].
Qed.

Lemma keeps_modify f : (forall s, kept s (f s)) -> keeps (modify f).
Proof. intros Hf s b s' H. ret_inv H. apply Hf. Qed.

Lemma keeps_deref w : keeps (deref w).
Proof.
  intros s b s' H. unfold deref in H.
  destruct (heap s !! w); [|discriminate]. injection H as ??; subst. apply kept_refl.
Qed.

Lemma keeps_recv : keeps recv.
Proof.
  intros s b s' H. unfold recv in H.
  destruct (queue s); [discriminate|]. injection H as ??; subst. by apply kept_fields.
Qed.

Lemma keeps_send cap w : keeps (send cap w).
Proof.
  intros s b s' H. unfold send in H.
  destruct (_ <? _); [|discriminate]. injection H as ??; subst. by apply kept_fields.
Qed.

Lemma keeps_repeatM n m : keeps m -> keeps (repeatM n m).
Proof.
  intros Hm. induction n as [|n IH]; [apply keeps_ret|].
  cbn [repeatM]. by apply keeps_bind.
Qed.

(** A transition: read the record, move it, then go on. *)
Lemma keeps_transition from to w (k : M unit) :
  keeps k -> keeps (let! wk := deref w in modify (move from to w wk) >>> k).
Proof.
  intros Hk s b s' H. bind_inv H.
  unfold deref in Ha. destruct (heap s !! w) as [wk|] eqn:Hw; [|discriminate].
  injection Ha as ??; subst. bind_inv H. ret_inv Ha.
  eapply kept_trans; [by apply kept_move|by eapply Hk].
Qed.

Lemma keeps_spawn g : keeps (modify (spawn g)).
Proof. apply keeps_modify. intros s. by apply kept_fields. Qed.

Lemma keeps_set_target t : keeps (modify (set_target t)).
Proof. apply keeps_modify. intros s. by apply kept_fields. Qed.

Lemma keeps_startNewWorker NewWorker : keeps (modify (startNewWorker NewWorker)).
Proof. apply keeps_modify, kept_startNewWorker. Qed.

Create HintDb keeps.

#[local] Hint Resolve keeps_ret keeps_gets keeps_deref keeps_recv keeps_send
  keeps_repeatM keeps_transition keeps_spawn keeps_set_target
  keeps_startNewWorker : keeps.
#[local] Hint Extern 2 (keeps (bind _ _)) => apply keeps_bind; [|intros ?] : keeps.

Lemma keeps_cleanWorker w : keeps (cleanWorker w).
Proof. unfold cleanWorker. auto with keeps. Qed.

Lemma keeps_detroyWorker w : keeps (detroyWorker w).
Proof. unfold detroyWorker. auto with keeps. Qed.

Lemma keeps_recoverWorker (uc : M unit) w : keeps uc -> keeps (recoverWorker uc w).
Proof. unfold recoverWorker. auto with keeps. Qed.

#[local] Hint Resolve keeps_cleanWorker keeps_detroyWorker keeps_recoverWorker : keeps.

Lemma keeps_recoverLoop (recover : loc -> M unit) entries n :
  (forall w, keeps (recover w)) -> keeps (recoverLoop recover entries n).
Proof.
  intros Hr. revert n. induction entries as [|[id w0] rest IH]; intros n.
  - apply keeps_ret.
  - cbn [recoverLoop]. apply keeps_bind; [apply keeps_gets|]. intros c.
    destruct (c !! id) as [w|]; [|apply IH].
    destruct (n <=? 0); auto with keeps.
Qed.

Lemma keeps_updateCluster NewWorker order fuel :
  keeps (updateCluster NewWorker order fuel).
Proof.
  induction fuel as [|fuel IH]; [by intros s a s' H|].
  cbn [updateCluster]. apply keeps_bind; [apply keeps_gets|]. intros scale.
  destruct (0 <? scale); [auto with keeps|].
  apply keeps_bind; [apply keeps_gets|]. intros clean.
  destruct (0 <? clean); [auto 6 with keeps|].
  apply keeps_bind; [apply keeps_gets|]. intros rec.
  destruct (0 <? rec); [|apply keeps_ret].
  apply keeps_bind; [apply keeps_gets|]. intros c.
  apply keeps_recoverLoop. auto with keeps.
Qed.

Lemma keeps_SetTarget NewWorker order fuel t :
  keeps (SetTarget NewWorker order fuel t).
Proof.
  unfold SetTarget. pose proof (keeps_updateCluster NewWorker order fuel).
  auto with keeps.
Qed.

Lemma keeps_Scale NewWorker rule order fuel :
  keeps (Scale NewWorker rule order fuel).
Proof.
  apply keeps_bind; [apply keeps_gets|]. intros t. apply keeps_SetTarget.
Qed.

(** ** The dispatcher, phase by phase *)

Section Dispatcher.

Variable Conf : Config.
Variable NewWorker : Z -> Worker.
Variable scale_rule : Z -> Z -> Z.
Variable range_order : gmap string loc -> list (string * loc).

Lemma atomic_AddNumTask_Ret w delta s u s' :
  atomic_AddNumTask w delta s = Ret u s' ->
  exists wk, heap s !! w = Some wk /\
    s' = store w (with_numTask (add32 (numTask wk) delta) wk) s.
Proof.
  intros H. unfold atomic_AddNumTask in H. bind_inv H.
  apply deref_Ret in Ha as [Hw ->]. ret_inv H. by eexists.
Qed.

Lemma acquire_Ret s w s1 :
  acquire Conf s = Ret w s1 ->
  exists wk rest,
    queue s = w :: rest /\
    heap s !! w = Some wk /\
    s1 = set_totalTask (add32 (totalTask s) 1)
           (store w (with_numTask (add32 (numTask wk) 1) wk)
              (set_queue (rest ++ [w]) s)).
Proof.
  intros H. unfold acquire in H. bind_inv H.
  unfold recv in Ha. destruct (queue s) as [|w0 rest] eqn:Hq; [discriminate|].
  injection Ha as ??; subst. bind_inv H.
  unfold send in Ha. cbn in Ha. destruct (_ <? _); [|discriminate].
  injection Ha as ??; subst. bind_inv H.
  apply atomic_AddNumTask_Ret in Ha as (wk & Hw & ->). bind_inv H.
  ret_inv Ha. ret_inv H. by exists wk, rest.
Qed.

Lemma respond_Ret env w worker s d s' :
  respond Conf env w worker s = Ret d s' ->
  s' = s /\ selected d = Some worker /\ is_Some (heap s !! worker).
Proof.
  intros H. unfold respond in H. bind_inv H.
  apply deref_Ret in Ha as [Hw ->].
  destruct (decide _).
  - destruct (write_ok env); [|discriminate]. ret_inv H. by rewrite Hw.
  - destruct (forwardTask _ _ _). ret_inv H. by rewrite Hw.
Qed.

Lemma release_Ret env w s u s' :
  release env w s = Ret u s' ->
  exists wk, heap s !! w = Some wk /\
    s' = set_latency (add64 (sumLatency s) (elapsed env)) (add64 (nLatency s) 1)
           (set_totalTask (add32 (totalTask s) (-1))
              (store w (with_numTask (add32 (numTask wk) (-1)) wk) s)).
Proof.
  intros H. unfold release in H. bind_inv H.
  apply atomic_AddNumTask_Ret in Ha as (wk & Hw & ->). bind_inv H.
  ret_inv Ha. ret_inv H. by exists wk.
Qed.

Lemma noActiveWorker_stop w s w1 :
  noActiveWorker Conf w s = (w1, true) ->
  Scaling Conf = "manual" /\ numActive s = 0.
Proof.
  unfold noActiveWorker. destruct (_ =? _) eqn:E; [|discriminate].
  destruct (decide _); [|discriminate]. intros _. split; [done|lia].
Qed.

(** The shape of every dispatch that returns after taking a worker. *)
Lemma RunLambda_Ret fuel env w s d s' :
  RunLambda Conf NewWorker scale_rule range_order fuel env w s = Ret d s' ->
  (exists w1, noActiveWorker Conf w s = (w1, true) /\
     d = mkDispatch w1 None None /\ s' = s) \/
  (exists w1 worker s1 s2,
     noActiveWorker Conf w s = (w1, false) /\
     acquire Conf s = Ret worker s1 /\
     (if decide (Scaling Conf = "auto")
      then Scale NewWorker scale_rule range_order fuel s1 = Ret tt s2
      else s2 = s1) /\
     respond Conf env w1 worker s2 = Ret d s2 /\
     release env worker s2 = Ret tt s').
Proof.
  intros H. unfold RunLambda in H. bind_inv H. ret_inv Ha.
  destruct (noActiveWorker Conf w s0) as [w1 [|]] eqn:Hg.
  - ret_inv H. left. by exists w1.
  - right. bind_inv H. bind_inv H. bind_inv H. bind_inv H. ret_inv H.
    pose proof (respond_Ret _ _ _ _ _ _ Ha1) as (-> & _).
    destruct a0, a2. exists w1, a, s, s1. repeat split; try done.
    destruct (decide _); [done|]. by ret_inv Ha0.
Qed.

(** C1. A dispatch that returns, whether the worker answered, the forward
    failed or no worker was taken, leaves [totalTask] and the [numTask]
    of every worker record, the selected one among them, at the value
    they had before the dispatch. The counters are 32 bits wide:
    [fits32] says that the values before the dispatch are of that type. *)
Theorem RunLambda_restores_counters fuel env w s d s' :
  fits32 (totalTask s) ->
  (forall l wk, heap s !! l = Some wk -> fits32 (numTask wk)) ->
  RunLambda Conf NewWorker scale_rule range_order fuel env w s = Ret d s' ->
  totalTask s' = totalTask s /\
  (forall l wk, heap s !! l = Some wk ->
     exists wk', heap s' !! l = Some wk' /\ numTask wk' = numTask wk) /\
  (forall l, selected d = Some l ->
     exists wk wk', heap s !! l = Some wk /\ heap s' !! l = Some wk' /\
       numTask wk' = numTask wk).
Proof.
  intros Ht Hn H.
  assert (Hsel : forall l, selected d = Some l -> is_Some (heap s !! l)).
  { intros l Hl. apply RunLambda_Ret in H as [(w1 & _ & -> & _)|
      (w1 & worker & s1 & s2 & _ & Hacq & _ & Hresp & _)]; [done|].
    apply respond_Ret in Hresp as (_ & Hd & _).
    apply acquire_Ret in Hacq as (wk & rest & _ & Hw & _).
    assert (l = worker) by congruence. subst. by rewrite Hw. }
  assert (Hmain : totalTask s' = totalTask s /\
    forall l wk, heap s !! l = Some wk ->
      exists wk', heap s' !! l = Some wk' /\ numTask wk' = numTask wk).
  { apply RunLambda_Ret in H as [(w1 & _ & -> & ->)|
      (w1 & worker & s1 & s2 & _ & Hacq & Hscale & _ & Hrel)].
    { split; [done|]. intros l wk Hl. by exists wk. }
    apply acquire_Ret in Hacq as (wk & rest & Hq & Hw & Hs1).
    assert (Hk : kept s1 s2).
    { destruct (decide _); [by eapply keeps_Scale|subst s2; apply kept_refl]. }
    destruct Hk as (Tk & _ & _ & Hk).
    apply release_Ret in Hrel as (wk2 & Hw2 & ->).
    assert (Hlt : (worker < length (heap s))%nat) by (by eapply lookup_lt_Some).
    assert (Hw1 : heap s1 !! worker = Some (with_numTask (add32 (numTask wk) 1) wk)).
    { subst s1. cbn. by apply list_lookup_insert_eq. }
    destruct (Hk _ _ Hw1) as (wk2' & Hw2' & Hn2 & _).
    assert (wk2' = wk2) by congruence. subst wk2'. cbn in Hn2.
    split.
    { cbn. rewrite Tk. subst s1. cbn. by apply add32_inc_dec. }
    intros l wk0 Hl. cbn. destruct (decide (l = worker)) as [->|Hne].
    - eexists. split.
      + apply list_lookup_insert_eq. by eapply lookup_lt_Some.
      + cbn. rewrite Hn2. assert (wk0 = wk) by congruence. subst wk0.
        apply add32_inc_dec. by eapply Hn.
    - rewrite list_lookup_insert_ne by done.
      assert (Hl1 : heap s1 !! l = Some wk0).
      { subst s1. cbn. by rewrite list_lookup_insert_ne. }
      destruct (Hk _ _ Hl1) as (wk' & ? & ? & _). by exists wk'. }
  destruct Hmain as [Htot Hall]. repeat split; [done..|].
  intros l Hl. destruct (Hsel l Hl) as [wk Hwk].
  destruct (Hall l wk Hwk) as (wk' & ? & ?). by exists wk, wk'.
Qed.

Lemma RunLambda_compose fuel env w s w1 worker s1 s2 d s' :
  noActiveWorker Conf w s = (w1, false) ->
  acquire Conf s = Ret worker s1 ->
  (if decide (Scaling Conf = "auto")
   then Scale NewWorker scale_rule range_order fuel s1 = Ret tt s2
   else s2 = s1) ->
  respond Conf env w1 worker s2 = Ret d s2 ->
  release env worker s2 = Ret tt s' ->
  RunLambda Conf NewWorker scale_rule range_order fuel env w s = Ret d s'.
Proof.
  intros Hg Hacq Hscale Hresp Hrel. unfold RunLambda.
  erewrite bind_Ret by reflexivity. rewrite Hg.
  erewrite bind_Ret by exact Hacq.
  erewrite (bind_Ret _ _ s1 tt s2).
  - erewrite bind_Ret by exact Hresp. by erewrite bind_Ret by exact Hrel.
  - destruct (decide _); [done|by subst].
Qed.

Lemma numActive_empty s :
  (size (starting s) + size (running s) = 0)%nat -> numActive s = 0.
Proof.
  intros H. unfold numActive, len.
  assert (size (starting s) = 0%nat) as -> by lia.
  assert (size (running s) = 0%nat) as -> by lia. done.
Qed.

Lemma numActive_fits s :
  Z.of_nat (size (starting s) + size (running s)) <= max64 ->
  numActive s = Z.of_nat (size (starting s) + size (running s)).
Proof.
  intros H. unfold numActive, len. rewrite add64_fits; [lia|].
  unfold fits64, min64. lia.
Qed.

Lemma atomic_AddNumTask_run w delta s wk :
  heap s !! w = Some wk ->
  atomic_AddNumTask w delta s =
    Ret tt (store w (with_numTask (add32 (numTask wk) delta) wk) s).
Proof. intros Hw. unfold atomic_AddNumTask, bind, deref. by rewrite Hw. Qed.

Lemma acquire_run s worker rest wk :
  queue s = worker :: rest ->
  heap s !! worker = Some wk ->
  Z.of_nat (length rest) < Worker_Cap Conf ->
  acquire Conf s =
    Ret worker
      (set_totalTask (add32 (totalTask s) 1)
         (store worker (with_numTask (add32 (numTask wk) 1) wk)
            (set_queue (rest ++ [worker]) s))).
Proof.
  intros Hq Hw Hcap. unfold acquire.
  erewrite bind_Ret; [|unfold recv; by rewrite Hq].
  erewrite bind_Ret; [|unfold send; cbn; by rewrite (proj2 (Z.ltb_lt _ _) Hcap)].
  by erewrite bind_Ret by (by apply atomic_AddNumTask_run).
Qed.

Lemma release_run env s worker wk :
  heap s !! worker = Some wk ->
  release env worker s =
    Ret tt
      (set_latency (add64 (sumLatency s) (elapsed env)) (add64 (nLatency s) 1)
         (set_totalTask (add32 (totalTask s) (-1))
            (store worker (with_numTask (add32 (numTask wk) (-1)) wk) s))).
Proof.
  intros Hw. unfold release.
  by erewrite bind_Ret by (by apply atomic_AddNumTask_run).
Qed.

(** C7. With no Starting and no Running worker and manual scaling, the
    dispatch answers status 500 with the body "no active worker" and a
    line feed, takes no worker from the queue, forwards nothing and
    leaves the whole state as it was. *)
Theorem RunLambda_no_active_worker fuel env s :
  Scaling Conf = "manual" ->
  (size (starting s) + size (running s) = 0)%nat ->
  RunLambda Conf NewWorker scale_rule range_order fuel env newResponse s =
    Ret (mkDispatch (mkResponse (Some 500) ("no active worker" +:+ LF)) None None) s.
Proof.
  intros Hm H0. unfold RunLambda.
  erewrite bind_Ret by reflexivity.
  unfold noActiveWorker. rewrite (numActive_empty _ H0). cbn.
  by rewrite decide_True.
Qed.

(** C8. With no Starting and no Running worker and auto scaling, the
    test that opens the dispatch writes status 500 and lets the handler
    go on to the queue; a dispatch that then takes a worker and returns
    keeps that status: the later WriteHeader(200) or http.Error does not
    replace it. *)
Theorem RunLambda_auto_idle_status fuel env s :
  Scaling Conf = "auto" ->
  (size (starting s) + size (running s) = 0)%nat ->
  noActiveWorker Conf newResponse s = (mkResponse (Some 500) "", false) /\
  forall d s',
    RunLambda Conf NewWorker scale_rule range_order fuel env newResponse s = Ret d s' ->
    status (resp d) = Some 500 /\ is_Some (selected d).
Proof.
  intros Ha H0.
  assert (Hg : noActiveWorker Conf newResponse s = (mkResponse (Some 500) "", false)).
  { unfold noActiveWorker. rewrite (numActive_empty _ H0). cbn.
    rewrite decide_False; [done|]. rewrite Ha. discriminate. }
  split; [done|]. intros d s' H.
  apply RunLambda_Ret in H as [(w1 & Hg' & _)|
    (w1 & worker & s1 & s2 & Hg' & _ & _ & Hresp & _)]; [congruence|].
  assert (w1 = mkResponse (Some 500) "") by congruence. subst w1.
  pose proof (respond_Ret _ _ _ _ _ _ Hresp) as (_ & Hsel & _).
  split; [|by rewrite Hsel].
  unfold respond in Hresp. bind_inv Hresp. apply deref_Ret in Hrespa as [_ ->].
  destruct (decide _).
  - destruct (write_ok env); [|discriminate]. by ret_inv Hresp.
  - unfold forwardTask in Hresp. destruct (client_Do _ _); by ret_inv Hresp.
Qed.

(** Past the opening test, a dispatch on an empty queue waits there. *)
Lemma RunLambda_waits fuel env w s w1 :
  noActiveWorker Conf w s = (w1, false) ->
  queue s = [] ->
  RunLambda Conf NewWorker scale_rule range_order fuel env w s = Blocked s.
Proof.
  intros Hg Hq. unfold RunLambda. erewrite bind_Ret by reflexivity. rewrite Hg.
  unfold bind, acquire, bind, recv. by rewrite Hq.
Qed.

(** On the mock platform a failed response write ends the dispatch in
    [panic(err)], after the increments and before the decrements. *)
Lemma RunLambda_mock_write_fails fuel env w s worker rest wk :
  Platform Conf = "mock" ->
  Scaling Conf <> "auto" ->
  numActive s <> 0 ->
  queue s = worker :: rest ->
  heap s !! worker = Some wk ->
  Z.of_nat (length rest) < Worker_Cap Conf ->
  write_ok env = false ->
  RunLambda Conf NewWorker scale_rule range_order fuel env w s =
    Panic (set_totalTask (add32 (totalTask s) 1)
             (store worker (with_numTask (add32 (numTask wk) 1) wk)
                (set_queue (rest ++ [worker]) s))).
Proof.
  intros Hmock Hm Hact Hq Hw Hcap Hbad. unfold RunLambda.
  erewrite bind_Ret by reflexivity.
  unfold noActiveWorker. rewrite (proj2 (Z.eqb_neq _ _) Hact).
  erewrite bind_Ret by (by apply acquire_run).
  rewrite decide_False by done. erewrite bind_Ret by reflexivity.
  unfold bind at 1. unfold respond, bind, deref. cbn.
  rewrite list_lookup_insert_eq by (by eapply lookup_lt_Some).
  by rewrite decide_True, Hbad by done.
Qed.

(** A forward that fails, without the scaling policy: the dispatch
    returns status 502 with the error text, the worker stays in the
    Running map and at the tail of the queue, the counters are back at
    their values and the latency is recorded. *)
Lemma RunLambda_forward_fails fuel env s worker rest wk msg :
  Platform Conf <> "mock" ->
  Scaling Conf <> "auto" ->
  numActive s <> 0 ->
  queue s = worker :: rest ->
  heap s !! worker = Some wk ->
  Z.of_nat (length rest) < Worker_Cap Conf ->
  fits32 (totalTask s) ->
  fits32 (numTask wk) ->
  client_Do env (workerIp wk +:+ ":" +:+ "5000") = ClientErr msg ->
  exists s',
    RunLambda Conf NewWorker scale_rule range_order fuel env newResponse s =
      Ret (mkDispatch (mkResponse (Some 502) (msg +:+ LF))
             (Some worker) (Some (workerIp wk))) s' /\
    totalTask s' = totalTask s /\
    heap s' = heap s /\
    running s' = running s /\
    queue s' = rest ++ [worker] /\
    nLatency s' = add64 (nLatency s) 1.
Proof.
  intros Hmock Hm Hact Hq Hw Hcap Ht Hn Herr.
  assert (Hlt : (worker < length (heap s))%nat) by (by eapply lookup_lt_Some).
  eexists. split.
  - eapply RunLambda_compose.
    + unfold noActiveWorker. by rewrite (proj2 (Z.eqb_neq _ _) Hact).
    + by apply acquire_run.
    + by rewrite decide_False.
    + unfold respond, bind, deref. cbn. rewrite list_lookup_insert_eq by done.
      rewrite decide_False by done. unfold forwardTask. cbn. by rewrite Herr.
    + apply release_run. cbn. by apply list_lookup_insert_eq.
  - cbn. repeat split.
    + by apply add32_inc_dec.
    + rewrite list_insert_insert_eq. cbn. rewrite add32_inc_dec by done.
      destruct wk. by apply list_insert_id.
Qed.

(** C10 (as amended). On the mock platform, a dispatch that passes the
    no-active-worker test, finds a worker at the head of the queue and
    whose response write succeeds returns status 200 with the body
    "hello from <workerId>" and a line feed, forwards nothing, runs the
    scaling policy (if any) on counters incremented by one, leaves
    [totalTask] and the worker's [numTask] at their values before the
    dispatch, and records the elapsed time. *)
Theorem RunLambda_mock fuel env s worker rest wk s2 :
  Platform Conf = "mock" ->
  numActive s <> 0 ->
  queue s = worker :: rest ->
  heap s !! worker = Some wk ->
  Z.of_nat (length rest) < Worker_Cap Conf ->
  fits32 (totalTask s) ->
  fits32 (numTask wk) ->
  write_ok env = true ->
  let s1 :=
    set_totalTask (add32 (totalTask s) 1)
      (store worker (with_numTask (add32 (numTask wk) 1) wk)
         (set_queue (rest ++ [worker]) s)) in
  (if decide (Scaling Conf = "auto")
   then Scale NewWorker scale_rule range_order fuel s1 = Ret tt s2
   else s2 = s1) ->
  exists s',
    RunLambda Conf NewWorker scale_rule range_order fuel env newResponse s =
      Ret (mkDispatch
             (mkResponse (Some 200) ("hello from " +:+ workerId wk +:+ LF))
             (Some worker) None) s' /\
    acquire Conf s = Ret worker s1 /\
    totalTask s' = totalTask s /\
    (exists wk', heap s' !! worker = Some wk' /\ numTask wk' = numTask wk) /\
    sumLatency s' = add64 (sumLatency s) (elapsed env) /\
    nLatency s' = add64 (nLatency s) 1.
Proof.
  intros Hmock Hact Hq Hw Hcap Ht Hn Hok s1 Hscale.
  assert (Hk : kept s1 s2).
  { destruct (decide _); [by eapply keeps_Scale|subst s2; apply kept_refl]. }
  destruct Hk as (Tk & Lk & Nk & Hk).
  assert (Hw1 : heap s1 !! worker = Some (with_numTask (add32 (numTask wk) 1) wk)).
  { cbn. apply list_lookup_insert_eq. by eapply lookup_lt_Some. }
  destruct (Hk _ _ Hw1) as (wk2 & Hw2 & Hn2 & Hid2 & _). cbn in Hn2, Hid2.
  eexists. split; [|split; [by apply acquire_run|]].
  - eapply RunLambda_compose.
    + unfold noActiveWorker. by rewrite (proj2 (Z.eqb_neq _ _) Hact).
    + by apply acquire_run.
    + exact Hscale.
    + unfold respond, bind, deref. rewrite Hw2, decide_True by done.
      rewrite Hok, Hid2. reflexivity.
    + by apply release_run.
  - cbn. rewrite Tk, Lk, Nk, Hn2. cbn. repeat split.
    + by apply add32_inc_dec.
    + eexists. split.
      * apply list_lookup_insert_eq. by eapply lookup_lt_Some.
      * cbn. by apply add32_inc_dec.
Qed.

Lemma rot1_rotate i (q : list loc) : rot1 (rotate i q) = rotate (S i) q.
Proof.
  destruct q as [|x q']; [unfold rotate; by rewrite !drop_nil, !take_nil|].
  set (l := x :: q').
  assert (Hlen : (0 < length l)%nat) by (cbn; lia).
  unfold rotate.
  pose proof (Nat.mod_upper_bound i (length l) ltac:(lia)) as Hk.
  set (k := (i `mod` length l)%nat) in *.
  destruct (lookup_lt_is_Some_2 l k Hk) as [y Hy].
  rewrite (drop_S l y k Hy). cbn [rot1 app].
  rewrite <- app_assoc, <- (take_S_r l k y Hy).
  assert (HS : (S i `mod` length l = if decide (S k = length l) then 0 else S k)%nat).
  { case_decide as Hd.
    - symmetry. apply (Nat.mod_unique _ _ (S (i / length l))); [lia|].
      pose proof (Nat.div_mod_eq i (length l)). subst k. lia.
    - symmetry. apply (Nat.mod_unique _ _ (i / length l)); [lia|].
      pose proof (Nat.div_mod_eq i (length l)). subst k. lia. }
  rewrite HS. case_decide as Hd; [|done].
  rewrite Hd, drop_all, firstn_all. cbn. by rewrite app_nil_r.
Qed.

Lemma iter_rot1_rotate i (q : list loc) : Nat.iter i rot1 q = rotate i q.
Proof.
  induction i as [|i IH].
  - cbn. unfold rotate. destruct q; [done|].
    rewrite Nat.Div0.mod_0_l. cbn. by rewrite app_nil_r.
  - by rewrite Nat.iter_succ, IH, rot1_rotate.
Qed.

Lemma rotate_head i (q : list loc) :
  head (rotate i q) = q !! (i `mod` length q)%nat.
Proof.
  destruct q as [|x q']; [unfold rotate; by rewrite !drop_nil, !take_nil|].
  set (l := x :: q').
  pose proof (Nat.mod_upper_bound i (length l) ltac:(cbn; lia)) as Hk.
  unfold rotate.
  destruct (lookup_lt_is_Some_2 l _ Hk) as [y Hy].
  by rewrite (drop_S l y _ Hy), Hy.
Qed.

Lemma rotate_Permutation i (q : list loc) : rotate i q ≡ₚ q.
Proof.
  unfold rotate. rewrite Permutation_app_comm. by rewrite take_drop.
Qed.

Lemma numActive_eq s s' :
  starting s' = starting s -> running s' = running s -> numActive s' = numActive s.
Proof. unfold numActive. by intros -> ->. Qed.

(** One dispatch without the scaling policy. *)
Lemma RunLambda_rot1 fuel env w s d s' :
  Scaling Conf <> "auto" ->
  numActive s <> 0 ->
  RunLambda Conf NewWorker scale_rule range_order fuel env w s = Ret d s' ->
  selected d = head (queue s) /\
  queue s' = rot1 (queue s) /\
  numActive s' = numActive s.
Proof.
  intros Hm Hact H.
  apply RunLambda_Ret in H as [(w1 & Hg & _)|
    (w1 & worker & s1 & s2 & _ & Hacq & Hscale & Hresp & Hrel)].
  { by apply noActiveWorker_stop in Hg as [_ ?]. }
  rewrite decide_False in Hscale by done. subst s2.
  apply acquire_Ret in Hacq as (wk & rest & Hq & Hw & ->).
  apply respond_Ret in Hresp as (_ & Hsel & _).
  apply release_Ret in Hrel as (wk2 & _ & ->).
  rewrite Hq. cbn. by rewrite Hsel.
Qed.

(** Every dispatch that takes a worker takes the head of the queue and
    has put it back at the tail before anything else happens. *)
Lemma RunLambda_selects_head fuel env w s d s' worker :
  RunLambda Conf NewWorker scale_rule range_order fuel env w s = Ret d s' ->
  selected d = Some worker ->
  exists rest s1,
    queue s = worker :: rest /\
    acquire Conf s = Ret worker s1 /\
    queue s1 = rest ++ [worker] /\
    queue s1 ≡ₚ queue s.
Proof.
  intros H Hsel.
  apply RunLambda_Ret in H as [(w1 & _ & -> & _)|
    (w1 & worker' & s1 & s2 & _ & Hacq & _ & Hresp & _)]; [done|].
  apply respond_Ret in Hresp as (_ & Hsel' & _).
  assert (worker' = worker) by congruence. subst worker'.
  pose proof (acquire_Ret _ _ _ Hacq) as (wk & rest & Hq & Hw & Hs1).
  exists rest, s1. repeat split; try done.
  - by subst s1.
  - subst s1. cbn. rewrite Hq. by rewrite <- Permutation_cons_append.
Qed.

(** One dispatch without the scaling policy, whether or not it takes a
    worker. *)
Lemma RunLambda_queue fuel env w s d s' :
  Scaling Conf <> "auto" ->
  RunLambda Conf NewWorker scale_rule range_order fuel env w s = Ret d s' ->
  queue s' ≡ₚ queue s /\
  match selected d with
  | Some worker => head (queue s) = Some worker /\ queue s' = rot1 (queue s)
  | None => queue s' = queue s
  end.
Proof.
  intros Hm H.
  apply RunLambda_Ret in H as [(w1 & _ & -> & ->)|
    (w1 & worker & s1 & s2 & _ & Hacq & Hscale & Hresp & Hrel)]; [done|].
  rewrite decide_False in Hscale by done. subst s2.
  apply acquire_Ret in Hacq as (wk & rest & Hq & Hw & ->).
  apply respond_Ret in Hresp as (_ & -> & _).
  apply release_Ret in Hrel as (wk2 & _ & ->).
  rewrite Hq. cbn. split; [by rewrite <- Permutation_cons_append|done].
Qed.

(** C6. Every dispatch that takes a worker takes the one at the head of
    the ready queue and has re-sent it to the tail before using it,
    which permutes the queue. When the scaling mode is not auto, so that
    the scaling policy is not run inside the dispatch, a dispatch that
    returns leaves the queue a permutation of the queue before: rotated
    by one place when a worker was taken, untouched when none was; and
    successive dispatches on a pool with a Starting or Running worker
    leave the queue rotated by their number, the i-th of them taking
    the worker at place i modulo the length of the queue. *)
Theorem dispatch_round_robin fuel :
  (forall env w s d s' worker,
     RunLambda Conf NewWorker scale_rule range_order fuel env w s = Ret d s' ->
     selected d = Some worker ->
     exists rest s1,
       queue s = worker :: rest /\
       acquire Conf s = Ret worker s1 /\
       queue s1 = rest ++ [worker] /\
       queue s1 ≡ₚ queue s) /\
  (forall env w s d s',
     Scaling Conf <> "auto" ->
     RunLambda Conf NewWorker scale_rule range_order fuel env w s = Ret d s' ->
     queue s' ≡ₚ queue s /\
     match selected d with
     | Some worker => head (queue s) = Some worker /\ queue s' = rot1 (queue s)
     | None => queue s' = queue s
     end) /\
  (forall envs s ds s',
     Scaling Conf <> "auto" ->
     numActive s <> 0 ->
     serveAll Conf NewWorker scale_rule range_order fuel envs s = Ret ds s' ->
     queue s' = rotate (length envs) (queue s) /\
     queue s' ≡ₚ queue s /\
     length ds = length envs /\
     forall i d, ds !! i = Some d ->
       selected d = queue s !! (i `mod` length (queue s))%nat).
Proof.
  split; [intros; by eapply RunLambda_selects_head|].
  split; [intros; by eapply RunLambda_queue|].
  intros envs s ds s' Hm Hact H.
  assert (Hgen : queue s' = Nat.iter (length envs) rot1 (queue s) /\
    length ds = length envs /\
    forall i d, ds !! i = Some d -> selected d = head (Nat.iter i rot1 (queue s))).
  { revert s ds s' Hact H. induction envs as [|env envs IH]; intros s ds s' Hact H.
    - ret_inv H. by repeat split.
    - cbn [serveAll] in H. bind_inv H. bind_inv H. ret_inv H.
      apply RunLambda_rot1 in Ha as (Hsel & Hq1 & Hact1); [|done..].
      destruct (IH s0 a0 s') as (Hq' & Hlen & Hall); [congruence|done|].
      split; [|split].
      + cbn [length]. by rewrite Nat.iter_succ_r, <- Hq1.
      + cbn. by rewrite Hlen.
      + intros [|i] d Hd.
        * cbn in Hd. by simplify_eq.
        * cbn in Hd. rewrite Nat.iter_succ_r, <- Hq1. by apply Hall. }
  destruct Hgen as (Hq & Hlen & Hall).
  rewrite iter_rot1_rotate in Hq. repeat split; [done| |done|].
  - rewrite Hq. apply rotate_Permutation.
  - intros i d Hd. rewrite (Hall i d Hd), iter_rot1_rotate. apply rotate_head.
Qed.

End Dispatcher.

(** ** Reconciliation *)

Section Reconcile.

Variable NewWorker : Z -> Worker.
Variable range_order : gmap string loc -> list (string * loc).

Lemma len_nonneg m : 0 <= len m.
Proof. unfold len. lia. Qed.

Lemma Size_total s : total s <= max64 -> Size s = total s.
Proof.
  unfold total, Size. intros H. cbn [foldl workers].
  pose proof (len_nonneg (starting s)). pose proof (len_nonneg (running s)).
  pose proof (len_nonneg (cleaning s)). pose proof (len_nonneg (destroying s)).
  rewrite (add64_fits 0) by (unfold fits64, min64; lia).
  rewrite (add64_fits (0 + _)) by (unfold fits64, min64; lia).
  rewrite (add64_fits (0 + _ + _)) by (unfold fits64, min64; lia).
  rewrite (add64_fits (0 + _ + _ + _)) by (unfold fits64, min64; lia).
  lia.
Qed.

Lemma scaleSize_total s :
  total s <= max64 -> fits64 (target s - total s) ->
  scaleSize s = target s - total s.
Proof.
  intros Ht Hf. unfold scaleSize. rewrite Size_total by done. by apply sub64_fits.
Qed.

(** The first stage: with a positive [scaleSize] the pass is that many
    calls of [startNewWorker] and nothing else. *)
Lemma updateCluster_stage1 fuel s :
  0 < scaleSize s ->
  updateCluster NewWorker range_order (S fuel) s =
    Ret tt (Nat.iter (Z.to_nat (scaleSize s)) (startNewWorker NewWorker) s).
Proof.
  intros H. cbn [updateCluster]. unfold bind at 1, gets at 1.
  rewrite (proj2 (Z.ltb_lt _ _) H). apply repeatM_modify.
Qed.

Lemma startNewWorker_iter_shape s n :
  fits64 (nextId s) -> nextId s + Z.of_nat n <= max64 ->
  let sn := Nat.iter n (startNewWorker NewWorker) s in
  nextId sn = nextId s + Z.of_nat n /\
  heap sn = heap s ++ map (mintedWorker NewWorker s) (seq 0 n) /\
  spawned sn = spawned s ++ map (fun i => GoStart (length (heap s) + i)) (seq 0 n) /\
  target sn = target s /\ running sn = running s /\ cleaning sn = cleaning s /\
  destroying sn = destroying s /\ queue sn = queue s.
Proof.
  intros Hf. induction n as [|n IH]; intros Hn sn.
  - subst sn. cbn. rewrite !app_nil_r. repeat split; lia.
  - subst sn. rewrite Nat.iter_succ.
    destruct IH as (Hid & Hh & Hsp & ? & ? & ? & ? & ?); [lia|].
    set (sn := Nat.iter n (startNewWorker NewWorker) s) in *.
    rewrite seq_S, !map_app. cbn [map].
    unfold startNewWorker. cbn.
    rewrite Hid, Hh, Hsp. rewrite length_app, length_map, length_seq, <- !app_assoc.
    repeat split; try done.
    rewrite add64_fits; [lia|]. unfold fits64 in *. lia.
Qed.

Lemma startNewWorker_iter_starting s n :
  fits64 (nextId s) -> nextId s + Z.of_nat n <= max64 ->
  starting (Nat.iter (S n) (startNewWorker NewWorker) s) =
    <[mintedId NewWorker s n := (length (heap s) + n)%nat]>
      (starting (Nat.iter n (startNewWorker NewWorker) s)).
Proof.
  intros Hf Hn. rewrite Nat.iter_succ.
  destruct (startNewWorker_iter_shape s n Hf Hn) as (Hid & Hh & _).
  set (sn := Nat.iter n (startNewWorker NewWorker) s) in *.
  unfold startNewWorker, mintedId. cbn.
  by rewrite Hid, Hh, length_app, length_map, length_seq.
Qed.

Lemma startNewWorker_iter_lookup s n :
  fits64 (nextId s) -> nextId s + Z.of_nat n <= max64 ->
  (forall i j, (i < n)%nat -> (j < n)%nat -> mintedId NewWorker s i = mintedId NewWorker s j -> i = j) ->
  (forall i, (i < n)%nat -> starting s !! mintedId NewWorker s i = None) ->
  let sn := Nat.iter n (startNewWorker NewWorker) s in
  (forall i, (i < n)%nat -> starting sn !! mintedId NewWorker s i = Some (length (heap s) + i)%nat) /\
  (forall id, (forall i, (i < n)%nat -> mintedId NewWorker s i <> id) ->
     starting sn !! id = starting s !! id) /\
  size (starting sn) = (size (starting s) + n)%nat.
Proof.
  intros Hf. induction n as [|n IH]; intros Hn Hinj Hfresh sn.
  - subst sn. cbn. split; [intros; lia|split; [done|lia]].
  - destruct IH as (Ha & Hb & Hsz);
      [lia|intros i j ???; apply Hinj; [lia|lia|done]|intros; apply Hfresh; lia|].
    subst sn. rewrite startNewWorker_iter_starting by (done || lia).
    set (sn := Nat.iter n (startNewWorker NewWorker) s) in *.
    assert (Hnone : starting sn !! mintedId NewWorker s n = None).
    { rewrite Hb; [apply Hfresh; lia|]. intros i Hi Heq. apply Hinj in Heq; lia. }
    split; [|split].
    + intros i Hi. destruct (decide (i = n)) as [->|Hne].
      * by rewrite lookup_insert_eq.
      * rewrite lookup_insert_ne; [apply Ha; lia|].
        intros Heq. apply Hinj in Heq; lia.
    + intros id Hid. rewrite lookup_insert_ne; [|apply Hid; lia].
      apply Hb. intros i Hi. apply Hid. lia.
    + rewrite map_size_insert_None by done. lia.
Qed.

(** C3. When the target exceeds the number of workers in the four maps,
    one pass starts exactly target minus total workers: it is that many
    calls of [startNewWorker], each putting a new record, in state
    STARTING, into the Starting map under the id minted from the next
    value of [nextId], and spawning its start goroutine. The Running,
    Cleaning and Destroying maps, the queue and the records that existed
    stay as they were: nothing is cleaned and nothing recovered.
    The ids the adapter mints are taken to be new and distinct. *)
Theorem updateCluster_scale_up fuel s :
  total s < target s ->
  fits64 (target s) ->
  fits64 (nextId s) ->
  nextId s + (target s - total s) <= max64 ->
  let n := Z.to_nat (target s - total s) in
  (forall i j, (i < n)%nat -> (j < n)%nat -> mintedId NewWorker s i = mintedId NewWorker s j -> i = j) ->
  (forall i, (i < n)%nat -> starting s !! mintedId NewWorker s i = None) ->
  exists s',
    updateCluster NewWorker range_order (S fuel) s = Ret tt s' /\
    s' = Nat.iter n (startNewWorker NewWorker) s /\
    size (starting s') = (size (starting s) + n)%nat /\
    (forall i, (i < n)%nat ->
       starting s' !! mintedId NewWorker s i = Some (length (heap s) + i)%nat /\
       heap s !! (length (heap s) + i)%nat = None /\
       heap s' !! (length (heap s) + i)%nat = Some (mintedWorker NewWorker s i)) /\
    (forall id, (forall i, (i < n)%nat -> mintedId NewWorker s i <> id) ->
       starting s' !! id = starting s !! id) /\
    spawned s' = spawned s ++ map (fun i => GoStart (length (heap s) + i)) (seq 0 n) /\
    nextId s' = nextId s + Z.of_nat n /\
    running s' = running s /\ cleaning s' = cleaning s /\
    destroying s' = destroying s /\ queue s' = queue s /\ target s' = target s /\
    (forall l wk, heap s !! l = Some wk -> heap s' !! l = Some wk).
Proof.
  intros Hgt Ht Hid Hmax n Hinj Hfresh.
  pose proof (len_nonneg (starting s)). pose proof (len_nonneg (running s)).
  pose proof (len_nonneg (cleaning s)). pose proof (len_nonneg (destroying s)).
  assert (Htot : 0 <= total s) by (unfold total; lia).
  assert (Hscale : scaleSize s = target s - total s).
  { apply scaleSize_total; unfold fits64, min64 in *; lia. }
  assert (Hn : Z.of_nat n = target s - total s) by (subst n; lia).
  exists (Nat.iter n (startNewWorker NewWorker) s).
  split; [|split; [done|]].
  { rewrite updateCluster_stage1 by lia. by rewrite Hscale. }
  destruct (startNewWorker_iter_shape s n Hid ltac:(lia))
    as (Hnext & Hheap & Hsp & ? & ? & ? & ? & ?).
  destruct (startNewWorker_iter_lookup s n Hid ltac:(lia) Hinj Hfresh)
    as (Ha & Hb & Hsz).
  repeat split; try done.
  - by apply Ha.
  - apply lookup_ge_None. lia.
  - rewrite Hheap, lookup_app_r by lia.
    replace (length (heap s) + i - length (heap s))%nat with i by lia.
    rewrite list_lookup_fmap, lookup_seq_lt by done. done.
  - intros l wk Hl. rewrite Hheap. apply lookup_app_l_Some. done.
Qed.

Lemma toBeClean_total s :
  total s <= max64 -> fits64 (target s) ->
  min64 < target s - total s <= 0 ->
  scaleSize s = target s - total s /\
  toBeClean (scaleSize s) s =
    - (target s - total s) - len (cleaning s) - len (destroying s) - len (starting s).
Proof.
  intros Ht Hf Hs.
  pose proof (len_nonneg (starting s)). pose proof (len_nonneg (running s)).
  pose proof (len_nonneg (cleaning s)). pose proof (len_nonneg (destroying s)).
  assert (Hscale : scaleSize s = target s - total s).
  { apply scaleSize_total; unfold fits64, max64, min64 in *; lia. }
  split; [done|]. unfold toBeClean. rewrite Hscale.
  unfold total, fits64, max64, min64 in *.
  rewrite mul64_fits by (unfold fits64, max64, min64; lia).
  rewrite (sub64_fits (-1 * _)) by (unfold fits64, max64, min64; lia).
  rewrite (sub64_fits (-1 * _ - _)) by (unfold fits64, max64, min64; lia).
  rewrite (sub64_fits (-1 * _ - _ - _)) by (unfold fits64, max64, min64; lia).
  lia.
Qed.

(** The second stage: with [scaleSize] not positive and a positive
    [toBeClean], the pass is that many rounds of receive-and-clean
    followed by a new pass. *)
Lemma updateCluster_stage2 fuel s :
  scaleSize s <= 0 ->
  0 < toBeClean (scaleSize s) s ->
  updateCluster NewWorker range_order (S fuel) s =
    (repeatM (Z.to_nat (toBeClean (scaleSize s) s))
       (let! worker := recv in cleanWorker worker) >>>
     updateCluster NewWorker range_order fuel) s.
Proof.
  intros H1 H2. cbn [updateCluster]. unfold bind at 1, gets at 1.
  rewrite (proj2 (Z.ltb_ge _ _) H1). unfold bind at 1, gets at 1.
  by rewrite (proj2 (Z.ltb_lt _ _) H2).
Qed.

Lemma cleanWorker_run w wk s :
  heap s !! w = Some wk ->
  cleanWorker w s = Ret tt (spawn (GoDrain w) (move RUNNING CLEANING w wk s)).
Proof. intros Hw. unfold cleanWorker, bind, deref. by rewrite Hw. Qed.

Lemma with_state_idemp st wk : with_state st (with_state st wk) = with_state st wk.
Proof. done. Qed.

(** [k] rounds of [worker := <-pool.queue; pool.cleanWorker(worker)] on
    a queue that holds at least [k] workers. *)
Lemma cleanLoop_run ws : forall s rest,
  queue s = ws ++ rest ->
  Forall (fun w => is_Some (heap s !! w)) ws ->
  exists s',
    repeatM (length ws) (let! worker := recv in cleanWorker worker) s = Ret tt s' /\
    queue s' = rest /\
    spawned s' = spawned s ++ map GoDrain ws /\
    starting s' = starting s /\ destroying s' = destroying s /\
    target s' = target s /\ nextId s' = nextId s /\
    length (heap s') = length (heap s) /\
    (forall w wk, w ∈ ws -> heap s !! w = Some wk ->
       heap s' !! w = Some (with_state CLEANING wk) /\
       running s' !! workerId wk = None /\
       is_Some (cleaning s' !! workerId wk)) /\
    (forall l, l ∉ ws -> heap s' !! l = heap s !! l) /\
    (forall id, (forall w wk, w ∈ ws -> heap s !! w = Some wk -> workerId wk <> id) ->
       running s' !! id = running s !! id /\ cleaning s' !! id = cleaning s !! id) /\
    (forall id, running s !! id = None -> running s' !! id = None) /\
    (forall id, is_Some (cleaning s !! id) -> is_Some (cleaning s' !! id)).
Proof.
  induction ws as [|w ws IH]; intros s rest Hq Hall.
  { exists s. cbn. rewrite app_nil_r. repeat split; try done.
    all: match goal with H : _ ∈ [] |- _ => by apply elem_of_nil in H end. }
  apply Forall_cons in Hall as [[wk Hw] Hall].
  set (sa := set_queue (ws ++ rest) s).
  set (sb := spawn (GoDrain w) (move RUNNING CLEANING w wk sa)).
  assert (Hlt : (w < length (heap s))%nat) by (by eapply lookup_lt_Some).
  assert (Hheap : forall l, heap sb !! l =
            if decide (l = w) then Some (with_state CLEANING wk) else heap s !! l).
  { intros l. cbn. case_decide as Hd.
    - subst l. by apply list_lookup_insert_eq.
    - by apply list_lookup_insert_ne. }
  destruct (IH sb rest) as (s' & Hrun & Hq' & Hsp & Hst & Hde & Hta & Hne & Hlen
    & Ha & Hb & Hc & Hd & He).
  { done. }
  { eapply Forall_impl; [exact Hall|]. intros l [wl Hl]. rewrite Hheap.
    case_decide; eauto. }
  exists s'. split.
  { cbn [length repeatM]. erewrite bind_Ret; [exact Hrun|].
    unfold bind, recv. rewrite Hq. cbn. fold sa.
    rewrite (cleanWorker_run w wk sa) by done. done. }
  split; [done|]. split.
  { rewrite Hsp. cbn. by rewrite <- app_assoc. }
  split; [done|]. split; [done|]. split; [done|]. split; [done|]. split.
  { rewrite Hlen. cbn. by rewrite length_insert. }
  assert (Hrw : running sb !! workerId wk = None) by (cbn; apply lookup_delete_eq).
  assert (Hcw : is_Some (cleaning sb !! workerId wk)).
  { cbn. rewrite lookup_insert_eq. eauto. }
  split; [|split; [|split; [|split]]].
  - intros l wl Hin Hl. apply elem_of_cons in Hin.
    destruct (decide (l ∈ ws)) as [Hin'|Hnin].
    + specialize (Hheap l). case_decide as Hd'.
      * subst l. assert (wl = wk) by congruence. subst wl.
        destruct (Ha w _ Hin' Hheap) as (H1 & H2 & H3). by rewrite with_state_idemp in H1.
      * rewrite Hl in Hheap. by destruct (Ha l _ Hin' Hheap) as (H1 & H2 & H3).
    + destruct Hin as [->|?]; [|done].
      assert (wl = wk) by congruence. subst wl.
      rewrite (Hb w Hnin), Hheap, decide_True by done. eauto.
  - intros l Hnin. apply not_elem_of_cons in Hnin as [Hne' Hnin].
    by rewrite (Hb l Hnin), Hheap, decide_False.
  - intros id Hid.
    assert (Hidw : workerId wk <> id) by (eapply Hid; [by left|done]).
    destruct (Hc id) as [H1 H2].
    { intros l wl Hin Hl. rewrite Hheap in Hl. case_decide.
      - by simplify_eq.
      - eapply Hid; [by right|done]. }
    rewrite H1, H2. cbn. by rewrite lookup_delete_ne, lookup_insert_ne.
  - intros id Hid. apply Hd. cbn.
    destruct (decide (workerId wk = id)) as [->|Hne'].
    + apply lookup_delete_eq.
    + by rewrite lookup_delete_ne.
  - intros id Hid. apply He. cbn.
    destruct (decide (workerId wk = id)) as [->|Hne'].
    + rewrite lookup_insert_eq. eauto.
    + by rewrite lookup_insert_ne.
Qed.

(** C4. When target minus total is not positive, the pass computes
    to_clean = -(target - total) - |Cleaning| - |Destroying| - |Starting|;
    when that is positive and the queue holds that many workers, the
    pass takes exactly that many workers from the head of the queue,
    moves each from the Running map to the Cleaning map (state CLEANING,
    one drain goroutine each), and then is a new pass on the state so
    reached. The bounds on [target] and [total] say that the Go
    arithmetic does not wrap. *)
Theorem updateCluster_clean fuel s ws rest :
  total s <= max64 ->
  fits64 (target s) ->
  min64 < target s - total s <= 0 ->
  let k := - (target s - total s) - len (cleaning s) - len (destroying s)
           - len (starting s) in
  0 < k ->
  queue s = ws ++ rest ->
  Z.of_nat (length ws) = k ->
  Forall (fun w => is_Some (heap s !! w)) ws ->
  toBeClean (scaleSize s) s = k /\
  exists s1,
    updateCluster NewWorker range_order (S fuel) s =
      updateCluster NewWorker range_order fuel s1 /\
    repeatM (length ws) (let! worker := recv in cleanWorker worker) s = Ret tt s1 /\
    queue s1 = rest /\
    spawned s1 = spawned s ++ map GoDrain ws /\
    (forall w wk, w ∈ ws -> heap s !! w = Some wk ->
       heap s1 !! w = Some (with_state CLEANING wk) /\
       running s1 !! workerId wk = None /\
       is_Some (cleaning s1 !! workerId wk)) /\
    (forall l, l ∉ ws -> heap s1 !! l = heap s !! l) /\
    (forall id, (forall w wk, w ∈ ws -> heap s !! w = Some wk -> workerId wk <> id) ->
       running s1 !! id = running s !! id /\ cleaning s1 !! id = cleaning s !! id) /\
    starting s1 = starting s /\ destroying s1 = destroying s /\
    target s1 = target s /\ nextId s1 = nextId s.
Proof.
  intros Ht Hf Hs k Hk Hq Hlen Hall.
  destruct (toBeClean_total s Ht Hf Hs) as [Hscale Hclean]. fold k in Hclean.
  split; [done|].
  destruct (cleanLoop_run ws s rest Hq Hall) as (s1 & Hrun & Hq1 & Hsp & Hst & Hde
    & Hta & Hne & _ & Ha & Hb & Hc & _).
  exists s1. split.
  { rewrite updateCluster_stage2 by (rewrite ?Hclean, ?Hscale; lia).
    rewrite Hclean, <- Hlen, Nat2Z.id. by erewrite bind_Ret by exact Hrun. }
  repeat split; try done; by (eapply Ha || eapply Hc).
Qed.

(** A queue shorter than the number of workers to clean: the pass waits
    on the empty queue after cleaning what it could take. *)
Lemma cleanLoop_blocks ws n s :
  queue s = ws ->
  Forall (fun w => is_Some (heap s !! w)) ws ->
  (length ws < n)%nat ->
  exists s', repeatM n (let! worker := recv in cleanWorker worker) s = Blocked s' /\
    queue s' = [].
Proof.
  intros Hq Hall Hn.
  destruct (cleanLoop_run ws s [] ltac:(by rewrite app_nil_r) Hall)
    as (s1 & Hrun & Hq1 & _).
  replace n with (length ws + S (n - length ws - 1))%nat by lia.
  generalize (n - length ws - 1)%nat as m. intros m.
  assert (Happ : forall a b (body : M unit) s0 s1,
    repeatM a body s0 = Ret tt s1 -> repeatM (a + b) body s0 = repeatM b body s1).
  { induction a as [|a IH]; intros b body s0 s1' H.
    - by ret_inv H.
    - cbn [repeatM Nat.add] in *. bind_inv H. destruct a0.
      erewrite bind_Ret by exact Ha. by apply IH. }
  rewrite (Happ _ _ _ _ _ Hrun). exists s1. split; [|done].
  cbn [repeatM]. unfold bind at 1, bind at 1, recv. by rewrite Hq1.
Qed.

(** *** Recovery and drain *)

(** The transition of [recoverWorker] itself moves the map entry and
    leaves the ready queue alone... *)
Lemma recoverWorker_queue w wk s :
  heap s !! w = Some wk ->
  recoverWorker (ret tt) w s = Ret tt (move CLEANING RUNNING w wk s) /\
  queue (move CLEANING RUNNING w wk s) = queue s.
Proof. intros Hw. unfold recoverWorker, bind, deref. by rewrite Hw. Qed.

(** ... while the other way into Running, at the end of the start
    goroutine, pushes the worker on the queue. *)
Lemma workerReady_queue Conf w wk s :
  heap s !! w = Some wk ->
  Z.of_nat (length (queue s)) < Worker_Cap Conf ->
  exists s', workerReady Conf (ret tt) w s = Ret tt s' /\
    queue s' = queue s ++ [w] /\
    running s' !! workerId wk = Some w.
Proof.
  intros Hw Hcap. unfold workerReady, bind, deref, send. rewrite Hw. cbn.
  rewrite (proj2 (Z.ltb_lt _ _) Hcap). eexists. split; [done|]. cbn.
  by rewrite lookup_insert_eq.
Qed.

(** A turn of the drain goroutine on a worker without tasks calls
    [detroyWorker], whether or not the Cleaning map still holds it. *)
Lemma drainPoll_idle w wk s :
  heap s !! w = Some wk ->
  numTask wk <= 0 ->
  drainPoll w s =
    Ret DrainDestroyed (spawn (GoDestroy w) (move CLEANING DESTROYING w wk s)).
Proof.
  intros Hw Hn. unfold drainPoll, bind at 1, deref. rewrite Hw.
  rewrite (proj2 (Z.ltb_ge _ _) Hn). unfold bind, detroyWorker, bind, deref.
  by rewrite Hw.
Qed.

(** A turn on a worker with tasks: the membership test decides. *)
Lemma drainPoll_busy w wk s :
  heap s !! w = Some wk ->
  0 < numTask wk ->
  drainPoll w s =
    Ret (if cleaning s !! workerId wk is Some _ then DrainSleep else DrainExit) s.
Proof.
  intros Hw Hn. unfold drainPoll, bind at 1, deref. rewrite Hw.
  rewrite (proj2 (Z.ltb_lt _ _) Hn). unfold bind, gets.
  by destruct (cleaning s !! workerId wk).
Qed.

End Reconcile.

(** ** The task report *)

Section Status.

Variable s : State.

Lemma sumTasks_wrap m :
  closed s m -> sumTasks s m = Some (wrap 64 (sumNumTask s m)).
Proof.
  intros Hc. unfold sumTasks, sumNumTask. rewrite map_fold_foldr.
  assert (Hl : forall id w, (id, w) ∈ map_to_list m -> is_Some (heap s !! w)).
  { intros id w Hin. apply elem_of_map_to_list in Hin. by eapply Hc. }
  induction (map_to_list m) as [|[id w] l IH]; [done|].
  cbn [foldr uncurry]. rewrite IH by (intros; eapply Hl; by right).
  destruct (Hl id w ltac:(by left)) as [wk Hwk].
  unfold numTaskAt. rewrite Hwk. cbn. f_equal.
  unfold add64. by rewrite wrap_wrap_add.
Qed.

Lemma reportWorkers_lookup m out :
  closed s m ->
  exists out', reportWorkers s m (Some out) = Some out' /\
    forall id, out' !! id =
      match m !! id with
      | Some w => numTaskAt s w
      | None => out !! id
      end.
Proof.
  unfold reportWorkers, closed.
  apply (map_fold_weak_ind (fun r m =>
    (forall id w, m !! id = Some w -> is_Some (heap s !! w)) ->
    exists out', r = Some out' /\
      forall id, out' !! id =
        match m !! id with Some w => numTaskAt s w | None => out !! id end)).
  - intros _. exists out. split; [done|]. intros id. by rewrite lookup_empty.
  - intros i x m0 r Hi IH Hc.
    destruct IH as (out0 & -> & Hout0).
    { intros id w Hid. apply (Hc id w). rewrite lookup_insert_ne; [done|].
      intros ->. congruence. }
    destruct (Hc i x ltac:(by rewrite lookup_insert_eq)) as [wk Hwk].
    unfold numTaskAt at 1. rewrite Hwk. cbn.
    eexists. split; [done|]. intros id.
    destruct (decide (i = id)) as [->|Hne].
    + rewrite !lookup_insert_eq. unfold numTaskAt. by rewrite Hwk.
    + rewrite !lookup_insert_ne by done. apply Hout0.
Qed.

(** C9. The report maps "total tasks" to the task counter, "task/worker"
    to the sum of [numTask] over the Running map divided, rounding
    toward zero, by the number of Starting and Running workers, or to 0
    when there is none, and the id of every worker in a state map to
    that worker's [numTask]. The two report keys are taken not to be
    worker ids, and the sum and the count to fit Go's int. *)
Theorem StatusTasks_report :
  (forall st, closed s (workers s st)) ->
  (forall st, workers s st !! "task/worker" = None /\
              workers s st !! "total tasks" = None) ->
  fits64 (sumNumTask s (running s)) ->
  len (running s) + len (starting s) <= max64 ->
  exists out,
    StatusTasks s = Some out /\
    out !! "total tasks" = Some (totalTask s) /\
    out !! "task/worker" =
      Some (if len (running s) + len (starting s) =? 0 then 0
            else Z.quot (sumNumTask s (running s))
                   (len (running s) + len (starting s))) /\
    (forall st id w,
       workers s st !! id = Some w -> is_Some (out !! id)) /\
    (forall st id w,
       workers s st !! id = Some w ->
       (forall st', st' <> st -> workers s st' !! id = None) ->
       exists wk, heap s !! w = Some wk /\ out !! id = Some (numTask wk)).
Proof.
  intros Hc Hres Hsum Hlen.
  pose proof (len_nonneg (starting s)). pose proof (len_nonneg (running s)).
  assert (HcS : closed s (starting s)) by apply (Hc STARTING).
  assert (HcR : closed s (running s)) by apply (Hc RUNNING).
  assert (HcC : closed s (cleaning s)) by apply (Hc CLEANING).
  assert (HcD : closed s (destroying s)) by apply (Hc DESTROYING).
  unfold StatusTasks.
  rewrite add64_fits by (unfold fits64, min64; lia).
  set (n := len (running s) + len (starting s)) in *.
  set (base := <["total tasks" := totalTask s]> (<["task/worker" := 0]> ∅)
    : gmap string Z).
  set (out0 := if 0 <? n then <["task/worker" := Z.quot (sumNumTask s (running s)) n]> base
               else base).
  assert (Hfirst : (if 0 <? n
      then sumTask ← sumTasks s (running s);
           Some (<["task/worker" := Z.quot sumTask n]> base)
      else Some base) = Some out0).
  { subst out0. destruct (0 <? n); [|done].
    rewrite (sumTasks_wrap _ HcR), wrap64_fits by done. done. }
  rewrite Hfirst. cbn [mbind option_bind foldl workers].
  destruct (reportWorkers_lookup (starting s) out0 HcS) as (o1 & -> & H1).
  destruct (reportWorkers_lookup (running s) o1 HcR) as (o2 & -> & H2).
  destruct (reportWorkers_lookup (cleaning s) o2 HcC) as (o3 & -> & H3).
  destruct (reportWorkers_lookup (destroying s) o3 HcD) as (o4 & -> & H4).
  exists o4. split; [done|].
  assert (Hkey : forall key, (forall st, workers s st !! key = None) ->
            o4 !! key = out0 !! key).
  { intros key Hk.
    pose proof (Hk STARTING) as K1. pose proof (Hk RUNNING) as K2.
    pose proof (Hk CLEANING) as K3. pose proof (Hk DESTROYING) as K4.
    cbn in K1, K2, K3, K4. by rewrite H4, K4, H3, K3, H2, K2, H1, K1. }
  split; [|split; [|split]].
  - rewrite Hkey by (intros st; apply Hres). subst out0 base.
    destruct (0 <? n); by simplify_map_eq.
  - rewrite Hkey by (intros st; apply Hres). subst out0 base.
    destruct (0 <? n) eqn:E1; destruct (n =? 0) eqn:E2; try lia; by simplify_map_eq.
  - assert (Hnum : forall m id w, closed s m -> m !! id = Some w ->
              is_Some (numTaskAt s w)).
    { intros m id w Hm Hw. destruct (Hm id w Hw) as [wk Hwk].
      unfold numTaskAt. rewrite Hwk. by eexists. }
    intros st id w Hw. rewrite H4, H3, H2, H1.
    destruct (destroying s !! id) as [wd|] eqn:Ed; [exact (Hnum _ _ _ HcD Ed)|].
    destruct (cleaning s !! id) as [wc|] eqn:Ec; [exact (Hnum _ _ _ HcC Ec)|].
    destruct (running s !! id) as [wr|] eqn:Er; [exact (Hnum _ _ _ HcR Er)|].
    destruct (starting s !! id) as [ws|] eqn:Es; [exact (Hnum _ _ _ HcS Es)|].
    destruct st; cbn in Hw; congruence.
  - intros st id w Hw Hother.
    destruct (Hc st id w Hw) as [wk Hwk]. exists wk. split; [done|].
    assert (Hnum : numTaskAt s w = Some (numTask wk)) by (unfold numTaskAt; by rewrite Hwk).
    rewrite H4, H3, H2, H1.
    destruct st; cbn in Hw;
      [ pose proof (Hother RUNNING ltac:(done)) as K2;
        pose proof (Hother CLEANING ltac:(done)) as K3;
        pose proof (Hother DESTROYING ltac:(done)) as K4;
        cbn in K2, K3, K4; by rewrite K4, K3, K2, Hw
      | pose proof (Hother CLEANING ltac:(done)) as K3;
        pose proof (Hother DESTROYING ltac:(done)) as K4;
        cbn in K3, K4; by rewrite K4, K3, Hw
      | pose proof (Hother DESTROYING ltac:(done)) as K4;
        cbn in K4; by rewrite K4, Hw
      | by rewrite Hw ].
Qed.

End Status.

(** * Concrete runs *)

(** C2. One idle Running worker; the target goes to 0, which sends the
    worker to Cleaning and spawns its drain goroutine, and back to 1,
    which recovers it, before the drain goroutine runs. Its first turn
    then finds [numTask] at 0, skips the loop with the membership test
    and calls [detroyWorker]: the recovered worker, absent from the
    Cleaning map, ends in state DESTROYING, in the Destroying map and
    still in the Running map. *)
Theorem drain_destroys_recovered_worker :
  exists s1 s2,
    (SetTarget mockWorker keyOrder 3 0 >>> SetTarget mockWorker keyOrder 3 1)
      pool_one_idle = Ret tt s1 /\
    running s1 !! "worker-1" = Some 0%nat /\
    cleaning s1 !! "worker-1" = None /\
    spawned s1 = [GoDrain 0%nat] /\
    drainPoll 0%nat s1 = Ret DrainDestroyed s2 /\
    running s2 !! "worker-1" = Some 0%nat /\
    destroying s2 !! "worker-1" = Some 0%nat /\
    (state <$> heap s2 !! 0%nat) = Some DESTROYING /\
    spawned s2 = [GoDrain 0%nat; GoDestroy 0%nat].
Proof.
  eexists. eexists.
  split; [vm_compute; reflexivity|].
  repeat split; vm_compute; reflexivity.
Qed.

(** C5. Target 1 and the only worker in Cleaning: the pass computes
    to_recover = 1 and moves the worker back to the Running map, and the
    ready queue is as empty after the pass as before: the recovered
    worker is not re-enqueued. *)
Theorem updateCluster_recover_not_enqueued :
  toBeRecover pool_cleaning = 1 /\
  exists s',
    updateCluster mockWorker keyOrder 2 pool_cleaning = Ret tt s' /\
    running s' !! "worker-1" = Some 0%nat /\
    cleaning s' = ∅ /\
    queue pool_cleaning = [] /\
    queue s' = [].
Proof.
  split; [vm_compute; reflexivity|].
  eexists. split; [vm_compute; reflexivity|].
  repeat split; vm_compute; reflexivity.
Qed.

(** The same pass with target 2 and three workers in Cleaning: the pass
    nested in the first recovery recovers a second worker, the outer
    loop, whose count is still 1, recovers the third, and the pass
    nested in that one, with three Running workers for a target of 2,
    waits on the empty queue for a worker to clean. *)
Lemma updateCluster_recover_overshoot :
  toBeRecover pool_cleaning3 = 2 /\
  exists s',
    updateCluster mockWorker keyOrder 6 pool_cleaning3 = Blocked s' /\
    size (running s') = 3%nat /\
    cleaning s' = ∅ /\
    queue s' = [].
Proof.
  split; [vm_compute; reflexivity|].
  eexists. split; [vm_compute; reflexivity|].
  repeat split; vm_compute; reflexivity.
Qed.

(** A forward that fails: status 502, counters as before. *)
Lemma RunLambda_restores_counters_witness :
  exists d s',
    RunLambda conf_manual_gcp mockWorker rule_one keyOrder 1 env_down newResponse
      pool_one = Ret d s' /\
    status (resp d) = Some 502 /\
    forwardedTo d = Some "10.0.0.1"%string /\
    totalTask s' = totalTask pool_one /\
    (forall l, selected d = Some l ->
       exists wk wk', heap pool_one !! l = Some wk /\ heap s' !! l = Some wk' /\
         numTask wk' = numTask wk).
Proof.
  eassert (Hrun : RunLambda conf_manual_gcp mockWorker rule_one keyOrder 1 env_down
    newResponse pool_one = Ret _ _) by (vm_compute; reflexivity).
  eexists. eexists. split; [exact Hrun|].
  split; [reflexivity|]. split; [reflexivity|].
  assert (Ht : fits32 (totalTask pool_one)) by (vm_compute; split; discriminate).
  assert (Hn : forall l wk, heap pool_one !! l = Some wk -> fits32 (numTask wk)).
  { intros [|l] wk H; cbn in H; [|by destruct l].
    injection H as <-. vm_compute. split; discriminate. }
  destruct (RunLambda_restores_counters _ _ _ _ _ _ _ _ _ _ Ht Hn Hrun)
    as (Htot & _ & Hsel).
  split; [exact Htot|exact Hsel].
Defined.

Lemma updateCluster_scale_up_witness :
  exists s',
    updateCluster mockWorker keyOrder 1 pool_empty = Ret tt s' /\
    size (starting s') = 2%nat /\
    starting s' !! "worker-1" = Some 0%nat /\
    starting s' !! "worker-2" = Some 1%nat /\
    spawned s' = [GoStart 0%nat; GoStart 1%nat] /\
    running s' = ∅ /\ cleaning s' = ∅ /\ queue s' = [].
Proof.
  assert (H1 : total pool_empty < target pool_empty) by reflexivity.
  assert (H2 : fits64 (target pool_empty)) by (vm_compute; split; discriminate).
  assert (H3 : fits64 (nextId pool_empty)) by (vm_compute; split; discriminate).
  assert (H4 : nextId pool_empty + (target pool_empty - total pool_empty) <= max64)
    by (vm_compute; discriminate).
  assert (H5 : forall i j, (i < 2)%nat -> (j < 2)%nat ->
    mintedId mockWorker pool_empty i = mintedId mockWorker pool_empty j -> i = j).
  { intros [|[|i]] [|[|j]] Hi Hj H; try lia; vm_compute in H; discriminate. }
  assert (H6 : forall i, (i < 2)%nat ->
    starting pool_empty !! mintedId mockWorker pool_empty i = None).
  { intros i _. apply lookup_empty. }
  destruct (updateCluster_scale_up mockWorker keyOrder 0 pool_empty H1 H2 H3 H4 H5 H6)
    as (s' & Hrun & _ & Hsz & Hnew & _ & Hsp & _ & Hr & Hc & _ & Hq & _).
  exists s'. split; [exact Hrun|]. split; [exact Hsz|].
  split; [exact (proj1 (Hnew 0%nat ltac:(vm_compute; lia)))|].
  split; [exact (proj1 (Hnew 1%nat ltac:(vm_compute; lia)))|].
  split; [exact Hsp|]. split; [exact Hr|]. split; [exact Hc|exact Hq].
Defined.

Lemma updateCluster_clean_witness :
  toBeClean (scaleSize pool_two) pool_two = 1 /\
  exists s1,
    updateCluster mockWorker keyOrder 2 pool_two =
      updateCluster mockWorker keyOrder 1 s1 /\
    queue s1 = [1%nat] /\
    spawned s1 = [GoDrain 0%nat] /\
    running s1 !! "worker-1" = None /\
    is_Some (cleaning s1 !! "worker-1") /\
    heap s1 !! 0%nat = Some (with_state CLEANING worker1).
Proof.
  assert (H1 : total pool_two <= max64) by (vm_compute; discriminate).
  assert (H2 : fits64 (target pool_two)) by (vm_compute; split; discriminate).
  assert (H3 : min64 < target pool_two - total pool_two <= 0)
    by (vm_compute; split; [reflexivity|discriminate]).
  assert (H4 : 0 < - (target pool_two - total pool_two) - len (cleaning pool_two)
    - len (destroying pool_two) - len (starting pool_two)) by reflexivity.
  assert (H5 : queue pool_two = [0%nat] ++ [1%nat]) by reflexivity.
  assert (H6 : Z.of_nat (length [0%nat]) =
    - (target pool_two - total pool_two) - len (cleaning pool_two)
    - len (destroying pool_two) - len (starting pool_two)) by reflexivity.
  assert (H7 : Forall (fun w => is_Some (heap pool_two !! w)) [0%nat]).
  { constructor; [by eexists|constructor]. }
  destruct (updateCluster_clean mockWorker keyOrder 1 pool_two [0%nat] [1%nat]
    H1 H2 H3 H4 H5 H6 H7) as (Hk & s1 & Hrun & _ & Hq & Hsp & Hw & _).
  split; [exact Hk|]. exists s1.
  destruct (Hw 0%nat worker1 ltac:(by left) ltac:(reflexivity)) as (Hh & Hr & Hc).
  split; [exact Hrun|]. split; [exact Hq|]. split; [exact Hsp|].
  split; [exact Hr|]. split; [exact Hc|exact Hh].
Defined.

(** Four dispatches over three workers: 1, 2, 3, 1. *)
Lemma dispatch_round_robin_witness :
  exists ds s',
    serveAll conf_manual_mock mockWorker rule_one keyOrder 0
      [env_up; env_up; env_up; env_up] pool_three = Ret ds s' /\
    map selected ds = [Some 0%nat; Some 1%nat; Some 2%nat; Some 0%nat] /\
    map (fun d => body (resp d)) ds =
      ["hello from worker-1" +:+ LF; "hello from worker-2" +:+ LF;
       "hello from worker-3" +:+ LF; "hello from worker-1" +:+ LF] /\
    queue s' = rotate 4 (queue pool_three) /\
    queue s' ≡ₚ queue pool_three /\
    forall i d, ds !! i = Some d ->
      selected d = queue pool_three !! (i `mod` length (queue pool_three))%nat.
Proof.
  eassert (Hrun : serveAll conf_manual_mock mockWorker rule_one keyOrder 0
    [env_up; env_up; env_up; env_up] pool_three = Ret _ _)
    by (vm_compute; reflexivity).
  eexists. eexists. split; [exact Hrun|].
  split; [reflexivity|]. split; [reflexivity|].
  assert (Hm : Scaling conf_manual_mock <> "auto") by discriminate.
  assert (Ha : numActive pool_three <> 0) by (vm_compute; discriminate).
  destruct (proj2 (proj2
    (dispatch_round_robin conf_manual_mock mockWorker rule_one keyOrder 0))
    _ _ _ _ Hm Ha Hrun) as (Hq & Hp & _ & Hall).
  split; [exact Hq|]. split; [exact Hp|exact Hall].
Defined.

(** C6 as stated fails for a dispatch in auto mode: the scaling policy
    runs inside the dispatch, and when it lowers the target the
    reconciliation it starts takes workers off the queue. With a rule
    that asks for no worker, a dispatch on a pool with one Running
    worker in the queue is served by that worker, status 200, and
    leaves the queue empty: the queue after is no permutation of the
    queue before. The rotation does not reach every Running worker
    either: after the target of a pool of three goes to 2 and back to 3
    all three workers are Running, but the recovered one is not in the
    queue, and six dispatches visit the other two in turn. *)
Lemma dispatch_round_robin_counterexample :
  Scaling conf_auto_mock = "auto" /\
  (exists d s',
     RunLambda conf_auto_mock mockWorker rule_zero keyOrder 2 env_up newResponse
       pool_one = Ret d s' /\
     status (resp d) = Some 200 /\
     selected d = Some 0%nat /\
     queue pool_one = [0%nat] /\
     queue s' = [] /\
     ~ queue s' ≡ₚ queue pool_one) /\
  (exists s1 ds s2,
     (SetTarget mockWorker keyOrder 3 2 >>> SetTarget mockWorker keyOrder 3 3)
       pool_three = Ret tt s1 /\
     running s1 = running pool_three /\
     running s1 !! "worker-1" = Some 0%nat /\
     queue s1 = [1%nat; 2%nat] /\
     serveAll conf_manual_mock mockWorker rule_one keyOrder 0
       [env_up; env_up; env_up; env_up; env_up; env_up] s1 = Ret ds s2 /\
     map selected ds =
       [Some 1%nat; Some 2%nat; Some 1%nat; Some 2%nat; Some 1%nat; Some 2%nat] /\
     Forall (fun d => selected d <> Some 0%nat) ds).
Proof.
  split; [reflexivity|]. split.
  - eexists. eexists. split; [vm_compute; reflexivity|].
    split; [reflexivity|]. split; [reflexivity|]. split; [reflexivity|].
    split; [reflexivity|].
    intros Hp. apply Permutation_length in Hp. discriminate.
  - eexists. eexists. eexists. split; [vm_compute; reflexivity|].
    split; [vm_compute; reflexivity|]. split; [vm_compute; reflexivity|].
    split; [reflexivity|]. split; [vm_compute; reflexivity|].
    split; [reflexivity|].
    repeat constructor; discriminate.
Qed.

Lemma RunLambda_no_active_worker_witness :
  RunLambda conf_manual_mock mockWorker rule_one keyOrder 0 env_up newResponse
    pool_idle =
  Ret (mkDispatch (mkResponse (Some 500) ("no active worker" +:+ LF)) None None)
    pool_idle.
Proof.
  apply RunLambda_no_active_worker; reflexivity.
Defined.

(** Auto scaling, mock platform: the dispatch is served by worker-1 and
    the response carries status 500. *)
Lemma RunLambda_auto_idle_status_witness :
  noActiveWorker conf_auto_mock newResponse pool_idle_ready =
    (mkResponse (Some 500) "", false) /\
  exists d s',
    RunLambda conf_auto_mock mockWorker rule_one keyOrder 1 env_up newResponse
      pool_idle_ready = Ret d s' /\
    resp d = mkResponse (Some 500) ("hello from worker-1" +:+ LF) /\
    status (resp d) = Some 500 /\
    is_Some (selected d).
Proof.
  destruct (RunLambda_auto_idle_status conf_auto_mock mockWorker rule_one keyOrder 1
    env_up pool_idle_ready eq_refl eq_refl) as [Hg Hall].
  split; [exact Hg|].
  eassert (Hrun : RunLambda conf_auto_mock mockWorker rule_one keyOrder 1 env_up
    newResponse pool_idle_ready = Ret _ _) by (vm_compute; reflexivity).
  eexists. eexists. split; [exact Hrun|]. split; [reflexivity|].
  exact (Hall _ _ Hrun).
Defined.

(** The same request on the empty queue: status 500 is written and the
    dispatch waits for a worker. *)
Lemma RunLambda_auto_idle_waits :
  noActiveWorker conf_auto_mock newResponse pool_idle =
    (mkResponse (Some 500) "", false) /\
  RunLambda conf_auto_mock mockWorker rule_one keyOrder 1 env_up newResponse
    pool_idle = Blocked pool_idle.
Proof. split; vm_compute; reflexivity. Qed.

Lemma StatusTasks_report_witness :
  exists out,
    StatusTasks pool_two = Some out /\
    out !! "total tasks" = Some 3 /\
    out !! "task/worker" = Some 1 /\
    out !! "worker-1" = Some 3 /\
    out !! "worker-2" = Some 0.
Proof.
  assert (H1 : forall st, closed pool_two (workers pool_two st)).
  { intros st id w H.
    assert (Hw : w = 0%nat \/ w = 1%nat).
    { destruct st; cbn in H; try (by rewrite lookup_empty in H).
      apply lookup_insert_Some in H as [[_ <-]|[_ H]]; [by left|].
      apply lookup_singleton_Some in H as [_ <-]. by right. }
    destruct Hw as [-> | ->]; by eexists. }
  assert (H2 : forall st, workers pool_two st !! "task/worker" = None /\
                          workers pool_two st !! "total tasks" = None).
  { intros st. destruct st; split; vm_compute; reflexivity. }
  assert (H3 : fits64 (sumNumTask pool_two (running pool_two)))
    by (vm_compute; split; discriminate).
  assert (H4 : len (running pool_two) + len (starting pool_two) <= max64)
    by (vm_compute; discriminate).
  destruct (StatusTasks_report pool_two H1 H2 H3 H4)
    as (out & Hrun & Ht & Hp & _ & Hw).
  exists out. split; [exact Hrun|]. split; [exact Ht|]. split; [exact Hp|].
  destruct (Hw RUNNING "worker-1"%string 0%nat ltac:(vm_compute; reflexivity))
    as (wk1 & Hk1 & Ho1).
  { intros st' Hne. destruct st'; first [vm_compute; reflexivity | congruence]. }
  destruct (Hw RUNNING "worker-2"%string 1%nat ltac:(vm_compute; reflexivity))
    as (wk2 & Hk2 & Ho2).
  { intros st' Hne. destruct st'; first [vm_compute; reflexivity | congruence]. }
  injection Hk1 as <-. injection Hk2 as <-. split; [exact Ho1|exact Ho2].
Defined.

(** C10 as stated fails twice on the mock platform. With manual scaling
    and no Starting and no Running worker the dispatch answers 500, "no
    active worker", not 200 and a greeting, and records no latency. With
    a worker at hand and a response write that fails, the dispatch ends
    in panic(err) with both counters one above their values before it
    and no latency recorded. *)
Lemma RunLambda_mock_counterexample :
  Platform conf_manual_mock = "mock" /\
  (exists d s',
     RunLambda conf_manual_mock mockWorker rule_one keyOrder 0 env_up newResponse
       pool_idle = Ret d s' /\
     status (resp d) = Some 500 /\
     status (resp d) <> Some 200 /\
     body (resp d) = "no active worker" +:+ LF /\
     selected d = None /\
     nLatency s' = nLatency pool_idle) /\
  (exists s',
     RunLambda conf_manual_mock mockWorker rule_one keyOrder 0 env_unwritable
       newResponse pool_one = Panic s' /\
     totalTask pool_one = 3 /\ totalTask s' = 4 /\
     (numTask <$> heap pool_one !! 0%nat) = Some 3 /\
     (numTask <$> heap s' !! 0%nat) = Some 4 /\
     nLatency s' = nLatency pool_one).
Proof.
  split; [reflexivity|]. split.
  - eexists. eexists. split; [vm_compute; reflexivity|].
    repeat split; try reflexivity. discriminate.
  - eexists. split; [vm_compute; reflexivity|]. repeat split; reflexivity.
Qed.

Lemma RunLambda_mock_witness :
  exists s',
    RunLambda conf_auto_mock mockWorker rule_one keyOrder 1 env_up newResponse
      pool_one =
      Ret (mkDispatch (mkResponse (Some 200) ("hello from worker-1" +:+ LF))
             (Some 0%nat) None) s' /\
    totalTask s' = 3 /\
    (exists wk', heap s' !! 0%nat = Some wk' /\ numTask wk' = 3) /\
    sumLatency s' = 5 /\
    nLatency s' = 1.
Proof.
  assert (H1 : numActive pool_one <> 0) by (vm_compute; discriminate).
  assert (H2 : Z.of_nat (length (@nil nat)) < Worker_Cap conf_auto_mock) by reflexivity.
  assert (H3 : fits32 (totalTask pool_one)) by (vm_compute; split; discriminate).
  assert (H4 : fits32 (numTask worker1)) by (vm_compute; split; discriminate).
  eassert (H5 : Scale mockWorker rule_one keyOrder 1
    (set_totalTask (add32 (totalTask pool_one) 1)
       (store 0%nat (with_numTask (add32 (numTask worker1) 1) worker1)
          (set_queue ([] ++ [0%nat]) pool_one))) = Ret tt _)
    by (vm_compute; reflexivity).
  destruct (RunLambda_mock conf_auto_mock mockWorker rule_one keyOrder 1 env_up
    pool_one 0%nat [] worker1 _ eq_refl H1 eq_refl eq_refl H2 H3 H4 eq_refl H5)
    as (s' & Hrun & _ & Ht & Hn & Hl & Hc).
  exists s'. split; [exact Hrun|]. split; [exact Ht|]. split; [exact Hn|].
  split; [exact Hl|exact Hc].
Defined.

(** * Beyond the listed claims *)

(** ** runCmd *)

Lemma sshLoop_shape ssh argv tries : forall n,
  (0 < tries)%nat ->
  let r := sshLoop ssh argv tries n in
  (1 <= length (calls r) <= tries)%nat /\
  slept r = 5 * (Z.of_nat (length (calls r)) - 1) /\
  Forall (fun a => a = argv) (calls r) /\
  (forall i, (i < length (calls r) - 1)%nat -> ssh (n + i)%nat argv = false) /\
  (panicked r = false -> ssh (n + (length (calls r) - 1))%nat argv = true) /\
  (panicked r = true ->
     length (calls r) = tries /\ ssh (n + (tries - 1))%nat argv = false).
Proof.
  induction tries as [|tries IH]; intros n Ht; [lia|].
  cbn [sshLoop]. destruct (ssh n argv) eqn:E.
  { cbn. repeat split; try lia; try done.
    - by constructor.
    - intros _. by rewrite Nat.add_0_r. }
  destruct tries as [|tries'].
  { cbn. repeat split; try lia; try done.
    - by constructor.
    - by rewrite Nat.add_0_r. }
  destruct (IH (S n) ltac:(lia)) as (Hlen & Hsl & Hall & Hfail & Hok & Hpan).
  set (r := sshLoop ssh argv (S tries') (S n)) in *.
  cbn [calls slept panicked length]. repeat split; try lia.
  - by constructor.
  - intros [|i] Hi; [by rewrite Nat.add_0_r|].
    replace (n + S i)%nat with (S n + i)%nat by lia. apply Hfail. lia.
  - intros Hp. replace (n + (S (length (calls r)) - 1))%nat
      with (S n + (length (calls r) - 1))%nat by lia. by apply Hok.
  - destruct (Hpan H) as [-> _]. done.
  - destruct (Hpan H) as [_ Hlast].
    replace (n + (S (S tries') - 1))%nat with (S n + (S tries' - 1))%nat by lia. done.
Qed.

(** X1. With a working directory and a user, [runCmd] runs the same ssh
    command on the worker's address over and over until it succeeds: at
    least once and at most 10 times, sleeping 5 seconds after every
    failure but the tenth; it stops at the first success, and it panics
    exactly when the first 10 commands all fail. *)
Theorem runCmd_retries cwd user ssh wk command :
  let argv := sshArgv cwd user (workerIp wk) command in
  let r := runCmd (Some cwd) (Some user) ssh wk command in
  (1 <= length (calls r) <= 10)%nat /\
  Forall (fun a => a = argv) (calls r) /\
  slept r = 5 * (Z.of_nat (length (calls r)) - 1) /\
  (forall i, (i < length (calls r) - 1)%nat -> ssh i argv = false) /\
  (panicked r = false -> ssh (length (calls r) - 1)%nat argv = true) /\
  (panicked r = true <-> forall i, (i < 10)%nat -> ssh i argv = false).
Proof.
  intros argv r. subst r. unfold runCmd. fold argv.
  destruct (sshLoop_shape ssh argv 10 0 ltac:(lia))
    as (Hlen & Hsl & Hall & Hfail & Hok & Hpan).
  set (r := sshLoop ssh argv 10 0) in *.
  repeat split; try lia; try done.
  - intros Hp i Hi. destruct (Hpan Hp) as [Hten Hlast].
    destruct (decide (i = 9%nat)) as [->|Hne]; [exact Hlast|].
    apply (Hfail i). lia.
  - intros Hnone. destruct (panicked r) eqn:Ep; [done|].
    specialize (Hok eq_refl).
    rewrite (Hnone (0 + (length (calls r) - 1))%nat) in Hok by lia. done.
Qed.

(** ** getUrlComponents and Invoke *)

Lemma splitSlash_nonempty path : splitSlash path <> [].
Proof.
  destruct path as [|c rest]; [done|]. cbn.
  destruct (Ascii.eqb c slash); [done|]. by destruct (splitSlash rest).
Qed.

Lemma splitSlash_length path : length (splitSlash path) = S (countSlash path).
Proof.
  induction path as [|c rest IH]; [done|]. cbn.
  destruct (Ascii.eqb c slash); cbn; [by rewrite IH|].
  pose proof (splitSlash_nonempty rest).
  destruct (splitSlash rest); [done|]. by rewrite <- IH.
Qed.

Lemma splitSlash_join path : joinSlash (splitSlash path) = path.
Proof.
  induction path as [|c rest IH]; [done|]. cbn [splitSlash].
  pose proof (splitSlash_nonempty rest) as Hne.
  destruct (Ascii.eqb c slash) eqn:E.
  - apply Ascii.eqb_eq in E as ->. cbn [joinSlash].
    destruct (splitSlash rest) as [|x xs]; [done|]. by rewrite IH.
  - destruct (splitSlash rest) as [|x xs]; [done|].
    destruct xs as [|y ys]; cbn in *; by rewrite <- IH.
Qed.

Lemma splitSlash_clean path :
  Forall (fun part => countSlash part = 0%nat) (splitSlash path).
Proof.
  induction path as [|c rest IH]; [by repeat constructor|]. cbn.
  destruct (Ascii.eqb c slash) eqn:E; [by constructor|].
  pose proof (splitSlash_nonempty rest).
  destruct (splitSlash rest) as [|x xs]; [done|].
  apply Forall_cons in IH as [Hx Hxs]. constructor; [|done]. cbn. by rewrite E.
Qed.

(** X2. The components of a path are never an empty list and none of
    them holds a "/"; joined with "/" they give back the path without
    one leading and one trailing "/", and there is one component more
    than that string has "/". *)
Theorem getUrlComponents_round_trip path :
  let trimmed := trimTrailingSlash (trimLeadingSlash path) in
  getUrlComponents path <> [] /\
  joinSlash (getUrlComponents path) = trimmed /\
  length (getUrlComponents path) = S (countSlash trimmed) /\
  Forall (fun part => countSlash part = 0%nat) (getUrlComponents path).
Proof.
  intros trimmed. unfold getUrlComponents. fold trimmed.
  split; [apply splitSlash_nonempty|].
  split; [apply splitSlash_join|].
  split; [apply splitSlash_length|apply splitSlash_clean].
Qed.

(** X3. [Invoke] answers 400 with the format hint exactly for the paths
    that, without one leading and one trailing "/", hold no "/"; any
    other path goes to the lambda named by the second component, which
    holds no "/" and can be the empty name. *)
Theorem Invoke_bad_request invokeLambda path w :
  let trimmed := trimTrailingSlash (trimLeadingSlash path) in
  (countSlash trimmed = 0%nat ->
     Invoke invokeLambda path w =
       Write "expected invocation format: /run/<lambda-name>" (WriteHeader 400 w)) /\
  (countSlash trimmed <> 0%nat ->
     exists img, getUrlComponents path !! 1%nat = Some img /\
       countSlash img = 0%nat /\
       Invoke invokeLambda path w = invokeLambda img w).
Proof.
  intros trimmed.
  pose proof (splitSlash_length trimmed) as Hlen.
  pose proof (splitSlash_clean trimmed) as Hclean.
  change (splitSlash trimmed) with (getUrlComponents path) in Hlen, Hclean.
  unfold Invoke. split; intros Hc.
  - rewrite Hlen, Hc. done.
  - destruct (getUrlComponents path) as [|a [|img rest]] eqn:E; cbn in Hlen; try lia.
    exists img. split; [done|]. split.
    + apply Forall_cons in Hclean as [_ Hclean]. by apply Forall_cons in Hclean as [? _].
    + done.
Qed.

(** ** The pool from construction to a converged state *)

Section Lifecycle.

Variable Conf : Config.
Variable NewWorker : Z -> Worker.
Variable scale_rule : Z -> Z -> Z.
Variable range_order : gmap string loc -> list (string * loc).

Lemma Size_wrap s : Size s = wrap 64 (total s).
Proof.
  unfold Size, total. cbn [foldl workers]. unfold add64.
  rewrite (wrap_wrap_add 64 (0 + _) (len (running s))) by lia.
  rewrite (wrap_wrap_add 64 (0 + _ + _) (len (cleaning s))) by lia.
  rewrite (wrap_wrap_add 64 (0 + _ + _ + _) (len (destroying s))) by lia.
  f_equal.
Qed.

Lemma converged_pass fuel s :
  len (starting s) + len (running s) = target s ->
  total s <= max64 ->
  updateCluster NewWorker range_order (S fuel) s = Ret tt s.
Proof.
  intros Htarget Htot.
  pose proof (len_nonneg (starting s)). pose proof (len_nonneg (running s)).
  pose proof (len_nonneg (cleaning s)). pose proof (len_nonneg (destroying s)).
  assert (Hf : fits64 (target s)).
  { unfold fits64, min64, max64, total in *. lia. }
  destruct (toBeClean_total s Htot Hf) as [Hscale Hclean].
  { unfold min64, max64, total in *. lia. }
  assert (Hrec : toBeRecover s = 0).
  { unfold toBeRecover. rewrite (sub64_fits (target s)).
    - rewrite sub64_fits; [lia|]. unfold fits64, min64, max64. lia.
    - unfold fits64, min64, max64, total in *. lia. }
  cbn [updateCluster]. unfold bind at 1, gets at 1.
  rewrite (proj2 (Z.ltb_ge 0 (scaleSize s))) by (rewrite Hscale; unfold total; lia).
  unfold bind at 1, gets at 1.
  rewrite (proj2 (Z.ltb_ge 0 (toBeClean _ s))) by (rewrite Hclean; unfold total; lia).
  unfold bind at 1, gets at 1. by rewrite Hrec.
Qed.

(** X4. A pool in which Starting and Running together number the target
    is a fixed point of reconciliation, whatever the Cleaning and
    Destroying maps hold: a pass returns it unchanged, and so does
    setting the target to the value it has. *)
Theorem updateCluster_converged fuel s :
  len (starting s) + len (running s) = target s ->
  total s <= max64 ->
  updateCluster NewWorker range_order (S fuel) s = Ret tt s /\
  SetTarget NewWorker range_order (S fuel) (target s) s = Ret tt s.
Proof.
  intros H1 H2. split; [by apply converged_pass|].
  unfold SetTarget, bind, modify.
  replace (set_target (target s) s) with s by (by destruct s).
  by apply converged_pass.
Qed.

(** X5. With a known platform, a capacity that is not negative and auto
    scaling, [NewWorkerPool] returns a pool with target 1 whose only
    worker is the one minted from id 1, in Starting, its start goroutine
    spawned; nothing is Running and the queue is empty. *)
Theorem NewWorkerPool_auto fuel target0 :
  Platform Conf ∈ ["gcp"; "azure"; "DO"; "mock"] ->
  0 <= Worker_Cap Conf ->
  Scaling Conf = "auto" ->
  exists s,
    NewWorkerPool Conf NewWorker range_order (S fuel) target0 = Ret tt s /\
    target s = 1 /\ nextId s = 2 /\
    starting s = {[ workerId (NewWorker 1) := 0%nat ]} /\
    heap s = [with_state STARTING (NewWorker 1)] /\
    spawned s = [GoStart 0%nat] /\
    running s = ∅ /\ cleaning s = ∅ /\ destroying s = ∅ /\ queue s = [] /\
    totalTask s = 0.
Proof.
  intros Hp Hcap Ha. unfold NewWorkerPool.
  rewrite bool_decide_eq_true_2 by done.
  rewrite (proj2 (Z.ltb_ge _ _)) by lia. rewrite decide_True by done.
  unfold SetTarget, bind at 1, modify.
  assert (Hs : scaleSize (set_target 1 (newPool target0)) = 1) by reflexivity.
  rewrite updateCluster_stage1 by (rewrite Hs; lia). rewrite Hs.
  eexists. split; [done|]. cbn. by repeat split.
Qed.

(** X6. With a platform name that is not one of the four, or a negative
    capacity, [NewWorkerPool] panics, whatever the scaling mode. *)
Theorem NewWorkerPool_misconfigured fuel target0 :
  Platform Conf ∉ ["gcp"; "azure"; "DO"; "mock"] \/ Worker_Cap Conf < 0 ->
  NewWorkerPool Conf NewWorker range_order fuel target0 = Panic (newPool target0).
Proof.
  intros H. unfold NewWorkerPool.
  destruct (bool_decide _) eqn:E; [|done].
  destruct H as [H|H]; [by apply bool_decide_eq_true_1 in E|].
  by rewrite (proj2 (Z.ltb_lt _ _) H).
Qed.

(** X7. A dispatch that returns without having taken a worker leaves
    the whole state as it was, latency record included; one that took a
    worker has added the elapsed time to [sumLatency] and 1 to
    [nLatency], in every scaling mode. *)
Theorem RunLambda_latency fuel env w s d s' :
  RunLambda Conf NewWorker scale_rule range_order fuel env w s = Ret d s' ->
  match selected d with
  | None => s' = s
  | Some _ =>
      sumLatency s' = add64 (sumLatency s) (elapsed env) /\
      nLatency s' = add64 (nLatency s) 1
  end.
Proof.
  intros H.
  apply RunLambda_Ret in H as [(w1 & _ & -> & ->)|
    (w1 & worker & s1 & s2 & _ & Hacq & Hscale & Hresp & Hrel)]; [done|].
  apply respond_Ret in Hresp as (_ & -> & _).
  apply acquire_Ret in Hacq as (wk & rest & _ & _ & ->).
  assert (Hk : kept
    (set_totalTask (add32 (totalTask s) 1)
       (store worker (with_numTask (add32 (numTask wk) 1) wk)
          (set_queue (rest ++ [worker]) s))) s2).
  { destruct (decide _); [by eapply keeps_Scale|subst s2; apply kept_refl]. }
  destruct Hk as (_ & Lk & Nk & _).
  apply release_Ret in Hrel as (wk2 & _ & ->). cbn. by rewrite Lk, Nk.
Qed.

(** X8. The status of a dispatch that returns is 200, 500 or 502. When
    Starting and Running are not both empty it is 502 exactly when the
    request was forwarded and the forward failed, and 200 otherwise,
    the mock platform being the one that forwards nothing. *)
Theorem RunLambda_status fuel env s d s' :
  RunLambda Conf NewWorker scale_rule range_order fuel env newResponse s = Ret d s' ->
  (status (resp d) = Some 200 \/ status (resp d) = Some 500 \/
   status (resp d) = Some 502) /\
  (numActive s <> 0 ->
   (forwardedTo d = None <-> Platform Conf = "mock") /\
   status (resp d) =
     Some match forwardedTo d with
          | None => 200
          | Some ip =>
              match client_Do env (ip +:+ ":" +:+ "5000") with
              | ClientErr _ => 502
              | ClientResp _ => 200
              end
          end).
Proof.
  intros H.
  apply RunLambda_Ret in H as [(w1 & Hg & -> & ->)|
    (w1 & worker & s1 & s2 & Hg & _ & _ & Hresp & _)].
  { pose proof (noActiveWorker_stop _ _ _ _ Hg) as [_ H0].
    unfold noActiveWorker in Hg. rewrite H0 in Hg. cbn in Hg.
    destruct (decide _); [|done]. injection Hg as <-. split; [by right; left|done]. }
  assert (Hw1 : (numActive s <> 0 /\ w1 = newResponse) \/
                (numActive s = 0 /\ w1 = mkResponse (Some 500) "")).
  { unfold noActiveWorker in Hg. destruct (numActive s =? 0) eqn:E.
    - right. split; [lia|]. cbn in Hg. destruct (decide _); [done|]. by injection Hg as <-.
    - left. split; [lia|]. by injection Hg as <-. }
  unfold respond in Hresp. bind_inv Hresp. apply deref_Ret in Hrespa as [_ ->].
  destruct (decide (Platform Conf = "mock")) as [Hm|Hm].
  - destruct (write_ok env); [|discriminate]. ret_inv Hresp. cbn.
    destruct Hw1 as [[Hn ->]|[Hn ->]]; cbn.
    + split; [by left|]. intros _. done.
    + split; [by right; left|done].
  - unfold forwardTask in Hresp.
    destruct (client_Do env _) as [b|msg] eqn:Ec; ret_inv Hresp; cbn;
      destruct Hw1 as [[Hn ->]|[Hn ->]]; cbn; rewrite ?Ec.
    + split; [by left|]. intros _. split; [|done]. split; [done|by intros ?].
    + split; [by right; left|done].
    + split; [by right; right|]. intros _. split; [|done]. split; [done|by intros ?].
    + split; [by right; left|done].
Qed.

(** X9. Without the scaling policy a dispatch never changes the four
    maps, the target, the id counter or the spawned goroutines, and
    never the id, address or state of a worker record: a failed forward
    leaves its worker Running. *)
Theorem RunLambda_leaves_pool fuel env w s d s' :
  Scaling Conf <> "auto" ->
  RunLambda Conf NewWorker scale_rule range_order fuel env w s = Ret d s' ->
  (forall st, workers s' st = workers s st) /\
  target s' = target s /\ nextId s' = nextId s /\ spawned s' = spawned s /\
  length (heap s') = length (heap s) /\
  (forall l wk, heap s !! l = Some wk ->
     exists wk', heap s' !! l = Some wk' /\ workerId wk' = workerId wk /\
       workerIp wk' = workerIp wk /\ state wk' = state wk).
Proof.
  intros Hm H.
  apply RunLambda_Ret in H as [(w1 & _ & -> & ->)|
    (w1 & worker & s1 & s2 & _ & Hacq & Hscale & Hresp & Hrel)].
  { repeat split; try done. intros l wk Hl. by exists wk. }
  rewrite decide_False in Hscale by done. subst s2.
  apply acquire_Ret in Hacq as (wk & rest & Hq & Hw & ->).
  apply release_Ret in Hrel as (wk2 & Hw2 & ->).
  assert (Hlt : (worker < length (heap s))%nat) by (by eapply lookup_lt_Some).
  cbn in Hw2. rewrite list_lookup_insert_eq in Hw2 by done. injection Hw2 as <-.
  split; [by intros []|]. cbn. rewrite !length_insert.
  repeat split; try done.
  intros l wk0 Hl. rewrite list_insert_insert_eq.
  destruct (decide (l = worker)) as [->|Hne].
  - rewrite list_lookup_insert_eq by done. eexists. split; [done|].
    assert (wk0 = wk) by congruence. by subst.
  - rewrite list_lookup_insert_ne by done. by exists wk0.
Qed.

End Lifecycle.

(** ** The pool invariant *)

Section Invariant.

Variable Conf : Config.
Variable NewWorker : Z -> Worker.
Variable scale_rule : Z -> Z -> Z.
Variable range_order : gmap string loc -> list (string * loc).

Lemma consistentb_sound s : consistentb s = true -> consistent s.
Proof.
  unfold consistentb. intros H.
  apply andb_true_iff in H as [H Hq]. apply andb_true_iff in H as [Hm Hnd].
  apply bool_decide_eq_true_1 in Hnd.
  rewrite forallb_forall in Hm. rewrite forallb_forall in Hq.
  assert (Hentry : forall st id w, workers s st !! id = Some w ->
            exists wk, heap s !! w = Some wk /\ workerId wk = id /\ state wk = st /\
              forall st', st' = st \/ workers s st' !! id = None).
  { intros st id w Hw.
    assert (Hst : In st [STARTING; RUNNING; CLEANING; DESTROYING])
      by (destruct st; cbn; tauto).
    specialize (Hm st Hst). rewrite forallb_forall in Hm.
    assert (Hin : In (id, w) (map_to_list (workers s st)))
      by (by apply list_elem_of_In, elem_of_map_to_list).
    specialize (Hm _ Hin). unfold entry_ok in Hm. cbn [fst snd] in Hm.
    destruct (heap s !! w) as [wk|]; [|discriminate].
    apply andb_true_iff in Hm as [Hm Hall]. apply andb_true_iff in Hm as [Hid Hstate].
    apply bool_decide_eq_true_1 in Hid, Hstate.
    exists wk. split; [done|]. split; [done|]. split; [done|].
    intros st'. rewrite forallb_forall in Hall.
    assert (Hst' : In st' [STARTING; RUNNING; CLEANING; DESTROYING])
      by (destruct st'; cbn; tauto).
    specialize (Hall st' Hst'). apply orb_true_iff in Hall as [Hall|Hall];
      apply bool_decide_eq_true_1 in Hall; [by left|by right]. }
  split; [|split; [|split]].
  - intros id st st' [x Hx] [y Hy].
    destruct (Hentry st id x Hx) as (_ & _ & _ & _ & Hothers).
    destruct (Hothers st') as [->|Hnone]; [done|congruence].
  - intros st id w Hw. destruct (Hentry st id w Hw) as (wk & ? & ? & ? & _).
    by exists wk.
  - done.
  - intros w Hw. apply list_elem_of_In in Hw. specialize (Hq w Hw).
    unfold queued_ok in Hq. destruct (heap s !! w) as [wk|]; [|discriminate].
    apply bool_decide_eq_true_1 in Hq. by exists wk.
Qed.

Lemma workers_move from to w wk s st :
  from <> to ->
  workers (move from to w wk s) st =
    if decide (st = to) then <[workerId wk := w]> (workers s to)
    else if decide (st = from) then delete (workerId wk) (workers s from)
    else workers s st.
Proof.
  intros Hne. destruct from, to, st; try done; cbn; repeat case_decide; done.
Qed.

(** Where an id is after a transition of the worker listed under [id]. *)
Lemma workers_move_lookup from to w wk s :
  from <> to ->
  exclusive s ->
  workers s from !! workerId wk = Some w ->
  forall st id,
    workers (move from to w wk s) st !! id =
      if decide (id = workerId wk)
      then (if decide (st = to) then Some w else None)
      else workers s st !! id.
Proof.
  intros Hne Hex Hfrom st id. rewrite workers_move by done.
  destruct (decide (id = workerId wk)) as [->|Hid].
  - destruct (decide (st = to)) as [->|Hto]; [by rewrite lookup_insert_eq|].
    destruct (decide (st = from)) as [->|Hfr]; [by rewrite lookup_delete_eq|].
    destruct (workers s st !! workerId wk) eqn:E; [|done].
    exfalso. apply Hfr. apply (Hex (workerId wk)); by eauto.
  - destruct (decide (st = to)) as [->|Hto]; [by rewrite lookup_insert_ne|].
    destruct (decide (st = from)) as [->|Hfr]; [by rewrite lookup_delete_ne|done].
Qed.

Lemma move_maps from to w wk s :
  from <> to ->
  exclusive s -> keyed s ->
  workers s from !! workerId wk = Some w ->
  heap s !! w = Some wk ->
  exclusive (move from to w wk s) /\ keyed (move from to w wk s).
Proof.
  intros Hne Hex Hkey Hfrom Hw.
  pose proof (workers_move_lookup from to w wk s Hne Hex Hfrom) as Hl.
  assert (Hlt : (w < length (heap s))%nat) by (by eapply lookup_lt_Some).
  split.
  - intros id st st' [x Hx] [y Hy]. rewrite Hl in Hx, Hy.
    destruct (decide (id = workerId wk)).
    + destruct (decide (st = to)), (decide (st' = to)); congruence.
    + apply (Hex id); by eauto.
  - intros st id w' Hw'. rewrite Hl in Hw'. cbn.
    destruct (decide (id = workerId wk)) as [->|Hid].
    + destruct (decide (st = to)) as [->|]; [|done]. injection Hw' as <-.
      exists (with_state to wk). by rewrite list_lookup_insert_eq.
    + destruct (Hkey st id w' Hw') as (wk' & Hwk' & Hid' & Hst').
      exists wk'. rewrite list_lookup_insert_ne; [done|].
      intros <-. congruence.
Qed.

Lemma move_sizes from to w wk s :
  from <> to ->
  exclusive s ->
  workers s from !! workerId wk = Some w ->
  len (workers (move from to w wk s) to) = len (workers s to) + 1 /\
  len (workers (move from to w wk s) from) = len (workers s from) - 1 /\
  (forall st, st <> from -> st <> to ->
     workers (move from to w wk s) st = workers s st) /\
  total (move from to w wk s) = total s.
Proof.
  intros Hne Hex Hfrom.
  assert (Hto : workers s to !! workerId wk = None).
  { destruct (workers s to !! workerId wk) eqn:E; [|done].
    exfalso. apply Hne. apply (Hex (workerId wk)); by eauto. }
  assert (H1 : len (workers (move from to w wk s) to) = len (workers s to) + 1).
  { rewrite workers_move, decide_True by done. unfold len.
    rewrite map_size_insert_None by done. lia. }
  assert (H2 : len (workers (move from to w wk s) from) = len (workers s from) - 1).
  { rewrite workers_move, decide_False, decide_True by done. unfold len.
    rewrite map_size_delete_Some by eauto.
    pose proof (map_size_ne_0_lookup_2 (workers s from) (workerId wk) ltac:(eauto)).
    lia. }
  assert (H3 : forall st, st <> from -> st <> to ->
     workers (move from to w wk s) st = workers s st).
  { intros st ??. by rewrite workers_move, !decide_False. }
  repeat split; try done.
  assert (Htot : forall s0, total s0 = len (workers s0 STARTING) +
    len (workers s0 RUNNING) + len (workers s0 CLEANING) + len (workers s0 DESTROYING))
    by done.
  rewrite !Htot.
  destruct from, to; try done;
    rewrite ?H1, ?H2, ?(H3 STARTING), ?(H3 RUNNING), ?(H3 CLEANING),
      ?(H3 DESTROYING) by done; lia.
Qed.

(** A transition out of a map other than Running. *)
Lemma move_consistent from to w wk s :
  from <> to -> from <> RUNNING ->
  consistent s ->
  workers s from !! workerId wk = Some w ->
  heap s !! w = Some wk ->
  consistent (move from to w wk s).
Proof.
  intros Hne Hnr (Hex & Hkey & Hnd & Hq) Hfrom Hw.
  destruct (move_maps from to w wk s Hne Hex Hkey Hfrom Hw) as [Hex' Hkey'].
  split; [done|]. split; [done|].
  split; [done|].
  intros w' Hin. change (queue (move from to w wk s)) with (queue s) in Hin.
  destruct (Hq w' Hin) as (wk' & Hwk' & Hrun).
  assert (Hid : workerId wk' <> workerId wk).
  { intros Heq. apply Hnr. apply (Hex (workerId wk)); [by eauto|].
    rewrite <- Heq. cbn. eauto. }
  assert (Hww : w' <> w) by (intros ->; congruence).
  exists wk'. split.
  - cbn. by rewrite list_lookup_insert_ne.
  - change (running (move from to w wk s)) with (workers (move from to w wk s) RUNNING).
    rewrite (workers_move_lookup from to w wk s Hne Hex Hfrom).
    by rewrite decide_False.
Qed.

(** The worker at the head of the queue leaves the queue and goes from
    Running to Cleaning. *)
Lemma clean_consistent w wk rest s :
  consistent s ->
  queue s = w :: rest ->
  heap s !! w = Some wk ->
  consistent (move RUNNING CLEANING w wk (set_queue rest s)) /\
  running s !! workerId wk = Some w.
Proof.
  intros (Hex & Hkey & Hnd & Hq) Hqueue Hw.
  destruct (Hq w ltac:(rewrite Hqueue; by left)) as (wk0 & Hwk0 & Hrun).
  assert (wk0 = wk) by congruence. subst wk0.
  split; [|done].
  set (s0 := set_queue rest s).
  assert (Hex0 : exclusive s0) by exact Hex.
  assert (Hkey0 : keyed s0) by exact Hkey.
  assert (Hfrom : workers s0 RUNNING !! workerId wk = Some w) by exact Hrun.
  destruct (move_maps RUNNING CLEANING w wk s0 ltac:(done) Hex0 Hkey0 Hfrom Hw)
    as [Hex' Hkey'].
  split; [done|]. split; [done|].
  rewrite Hqueue in Hnd. apply NoDup_cons in Hnd as [Hnin Hnd].
  split; [done|].
  intros w' Hin. change (queue (move RUNNING CLEANING w wk s0)) with rest in Hin.
  destruct (Hq w' ltac:(rewrite Hqueue; by right)) as (wk' & Hwk' & Hrun').
  assert (Hww : w' <> w) by (by intros ->).
  assert (Hid : workerId wk' <> workerId wk) by (intros Heq; congruence).
  exists wk'. split.
  - cbn. by rewrite list_lookup_insert_ne.
  - change (running (move RUNNING CLEANING w wk s0))
      with (workers (move RUNNING CLEANING w wk s0) RUNNING).
    rewrite (workers_move_lookup RUNNING CLEANING w wk s0 ltac:(done) Hex0 Hfrom).
    by rewrite decide_False.
Qed.

Lemma consistent_spawn g s : consistent s -> consistent (spawn g s).
Proof. by intros H. Qed.

Lemma reshuffled_refl s : consistent s -> reshuffled s s.
Proof. by intros H. Qed.

Lemma reshuffled_trans s1 s2 s3 :
  reshuffled s1 s2 -> reshuffled s2 s3 -> reshuffled s1 s3.
Proof.
  intros (_ & ? & ? & ? & ? & ?) (? & ? & ? & ? & ? & ?).
  split; [done|]. repeat split; congruence.
Qed.

Lemma reshuffled_scaleSize s0 s : reshuffled s0 s -> scaleSize s = scaleSize s0.
Proof.
  intros (_ & Ht & _ & _ & _ & Hn). unfold scaleSize.
  by rewrite !Size_wrap, Ht, Hn.
Qed.

Lemma reshuffled_move from to w wk s :
  from <> to -> from <> RUNNING -> from <> STARTING -> from <> DESTROYING ->
  to <> STARTING -> to <> DESTROYING ->
  consistent s ->
  workers s from !! workerId wk = Some w ->
  heap s !! w = Some wk ->
  reshuffled s (move from to w wk s).
Proof.
  intros Hne ? ? ? ? ? Hc Hfrom Hw.
  pose proof Hc as (Hex & _).
  destruct (move_sizes from to w wk s Hne Hex Hfrom) as (_ & _ & Hkeep & Htot).
  split; [by apply move_consistent|]. split; [done|]. split; [done|].
  split; [by apply (Hkeep STARTING)|].
  split; [by apply (Hkeep DESTROYING)|exact Htot].
Qed.

(** One round of [worker := <-pool.queue; pool.cleanWorker(worker)]. *)
Lemma clean_round s s' :
  consistent s ->
  (let! worker := recv in cleanWorker worker) s = Ret tt s' ->
  exists w wk rest,
    queue s = w :: rest /\ heap s !! w = Some wk /\
    running s !! workerId wk = Some w /\
    s' = spawn (GoDrain w) (move RUNNING CLEANING w wk (set_queue rest s)) /\
    reshuffled s s' /\
    len (running s') = len (running s) - 1 /\
    len (cleaning s') = len (cleaning s) + 1 /\
    cleaning s' !! workerId wk = Some w /\
    (forall id v, cleaning s !! id = Some v -> cleaning s' !! id = Some v).
Proof.
  intros Hc H. bind_inv H. unfold recv in Ha.
  destruct (queue s) as [|w0 rest] eqn:Hq; [done|]. ret_inv Ha.
  unfold cleanWorker in H. bind_inv H. apply deref_Ret in Ha as [Hw ->].
  bind_inv H. ret_inv Ha. ret_inv H.
  rename a into w, a0 into wk. change (heap s !! w = Some wk) in Hw.
  destruct (clean_consistent w wk rest s Hc Hq Hw) as [Hc' Hrun].
  set (s0 := set_queue rest s) in *.
  pose proof Hc as (Hex & _).
  destruct (move_sizes RUNNING CLEANING w wk s0 ltac:(done) Hex Hrun)
    as (H1 & H2 & H3 & Htot).
  pose proof (workers_move_lookup RUNNING CLEANING w wk s0 ltac:(done) Hex Hrun) as Hl.
  exists w, wk, rest.
  split; [done|]. split; [done|]. split; [done|]. split; [done|].
  split.
  { split; [exact Hc'|]. split; [done|]. split; [done|].
    split; [exact (H3 STARTING ltac:(done) ltac:(done))|].
    split; [exact (H3 DESTROYING ltac:(done) ltac:(done))|exact Htot]. }
  split; [exact H2|]. split; [exact H1|]. split.
  - change (cleaning (spawn (GoDrain w) (move RUNNING CLEANING w wk s0)))
      with (workers (move RUNNING CLEANING w wk s0) CLEANING).
    by rewrite Hl, !decide_True.
  - intros id v Hv.
    change (cleaning (spawn (GoDrain w) (move RUNNING CLEANING w wk s0)))
      with (workers (move RUNNING CLEANING w wk s0) CLEANING).
    rewrite Hl. destruct (decide (id = workerId wk)) as [->|]; [|done].
    exfalso. assert (CLEANING = RUNNING); [|done].
    apply (Hex (workerId wk)); cbn; eauto.
Qed.

(** [n] rounds: the first [n] workers of the queue go from Running to
    Cleaning and nothing else moves. *)
Lemma clean_rounds n : forall s s',
  consistent s ->
  repeatM n (let! worker := recv in cleanWorker worker) s = Ret tt s' ->
  exists ws,
    length ws = n /\ queue s = ws ++ queue s' /\
    spawned s' = spawned s ++ map GoDrain ws /\
    reshuffled s s' /\
    len (running s') = len (running s) - Z.of_nat n /\
    len (cleaning s') = len (cleaning s) + Z.of_nat n /\
    (forall w, w ∈ ws -> exists id, cleaning s' !! id = Some w) /\
    (forall id v, cleaning s !! id = Some v -> cleaning s' !! id = Some v).
Proof.
  induction n as [|n IH]; intros s s' Hc H.
  { ret_inv H. exists []. cbn. rewrite app_nil_r.
    split; [done|]. split; [done|]. split; [done|].
    split; [by apply reshuffled_refl|]. split; [lia|]. split; [lia|].
    split; [|done]. intros w Hw. by apply elem_of_nil in Hw. }
  cbn [repeatM] in H. bind_inv H. destruct a.
  destruct (clean_round s s0 Hc Ha)
    as (w & wk & rest & Hq & Hw & Hrun & Hs0 & Hre & Hr & Hcl & Hin0 & Hmono).
  pose proof Hre as (Hc0 & _).
  destruct (IH s0 s' Hc0 H)
    as (ws & Hlen & Hq' & Hsp & Hre' & Hr' & Hcl' & Hall & Hmono').
  exists (w :: ws). split; [cbn; lia|]. split.
  { rewrite Hq. cbn. f_equal. rewrite <- Hq'. by rewrite Hs0. }
  split.
  { rewrite Hsp, Hs0. cbn. by rewrite <- app_assoc. }
  split; [by eapply reshuffled_trans|].
  split; [lia|]. split; [lia|]. split.
  - intros w' Hin. apply elem_of_cons in Hin as [->|Hin]; [|by apply Hall].
    exists (workerId wk). by apply Hmono'.
  - intros id v Hv. by apply Hmono', Hmono.
Qed.

(** The converse: a consistent pool whose queue holds [n] workers runs
    the [n] rounds. *)
Lemma clean_rounds_run ws : forall s rest,
  consistent s ->
  queue s = ws ++ rest ->
  exists s', repeatM (length ws) (let! worker := recv in cleanWorker worker) s
               = Ret tt s' /\ queue s' = rest.
Proof.
  intros s rest (_ & _ & _ & Hq) Hqueue.
  destruct (cleanLoop_run ws s rest Hqueue) as (s' & Hrun & Hq' & _).
  - apply Forall_forall. intros w Hin.
    destruct (Hq w) as (wk & Hwk & _); [|by eauto].
    rewrite Hqueue. apply elem_of_app. by left.
  - by exists s'.
Qed.

(** A pass with nothing to start, clean or recover returns at once. *)
Lemma updateCluster_idle fuel s :
  scaleSize s <= 0 ->
  toBeClean (scaleSize s) s <= 0 ->
  toBeRecover s <= 0 ->
  updateCluster NewWorker range_order (S fuel) s = Ret tt s.
Proof.
  intros H1 H2 H3. cbn [updateCluster]. unfold bind at 1, gets at 1.
  rewrite (proj2 (Z.ltb_ge _ _) H1). unfold bind at 1, gets at 1.
  rewrite (proj2 (Z.ltb_ge _ _) H2). unfold bind at 1, gets at 1.
  by rewrite (proj2 (Z.ltb_ge _ _) H3).
Qed.

Lemma recoverLoop_reshuffles (uc : M unit) entries : forall n s s',
  (forall s1 s2, consistent s1 -> scaleSize s1 <= 0 -> uc s1 = Ret tt s2 ->
     reshuffled s1 s2) ->
  consistent s -> scaleSize s <= 0 ->
  recoverLoop (recoverWorker uc) entries n s = Ret tt s' ->
  reshuffled s s'.
Proof.
  induction entries as [|[id w0] rest IH]; intros n s s' Huc Hc Hs H.
  { ret_inv H. by apply reshuffled_refl. }
  cbn [recoverLoop] in H. bind_inv H. ret_inv Ha.
  destruct (cleaning s0 !! id) as [w|] eqn:Hcl; [|by eapply IH].
  destruct (n <=? 0); [ret_inv H; by apply reshuffled_refl|].
  bind_inv H. destruct a.
  unfold recoverWorker in Ha. bind_inv Ha. apply deref_Ret in Haa as [Hw ->].
  bind_inv Ha. ret_inv Haa.
  pose proof Hc as (_ & Hkey & _).
  destruct (Hkey CLEANING id w Hcl) as (wk & Hwk & Hid & _).
  assert (a = wk) by congruence. subst a. subst id.
  assert (Hm : reshuffled s0 (move CLEANING RUNNING w wk s0))
    by (by apply reshuffled_move).
  pose proof Hm as (Hcm & _).
  assert (Hsm : scaleSize (move CLEANING RUNNING w wk s0) <= 0)
    by (by rewrite (reshuffled_scaleSize _ _ Hm)).
  pose proof (Huc _ _ Hcm Hsm Ha) as Hu.
  pose proof Hu as (Hcu & _).
  assert (Hsu : scaleSize s <= 0) by (by rewrite (reshuffled_scaleSize _ _ Hu)).
  eapply reshuffled_trans; [exact Hm|].
  eapply reshuffled_trans; [exact Hu|]. by eapply IH.
Qed.

(** The third stage. *)
Lemma updateCluster_stage3 fuel s :
  scaleSize s <= 0 ->
  toBeClean (scaleSize s) s <= 0 ->
  updateCluster NewWorker range_order (S fuel) s =
    if 0 <? toBeRecover s
    then recoverLoop (recoverWorker (updateCluster NewWorker range_order fuel))
           (range_order (cleaning s)) (toBeRecover s) s
    else Ret tt s.
Proof.
  intros H1 H2. cbn [updateCluster]. unfold bind at 1, gets at 1.
  rewrite (proj2 (Z.ltb_ge _ _) H1). unfold bind at 1, gets at 1.
  rewrite (proj2 (Z.ltb_ge _ _) H2). unfold bind at 1, gets at 1.
  by destruct (0 <? toBeRecover s).
Qed.

(** X10. A pass that has no worker to start, on a pool in which every
    id is in one map, every entry points to a record of that id and
    state, and the queue holds distinct Running workers, returns a pool
    with the same properties, the same target, id counter, Starting and
    Destroying maps and the same number of workers: workers only go
    between Running and Cleaning. *)
Theorem updateCluster_reshuffles fuel s s' :
  consistent s ->
  scaleSize s <= 0 ->
  updateCluster NewWorker range_order fuel s = Ret tt s' ->
  reshuffled s s'.
Proof.
  revert s s'. induction fuel as [|fuel IH]; intros s s' Hc Hs H; [done|].
  destruct (Z.lt_ge_cases 0 (toBeClean (scaleSize s) s)) as [Hclean|Hclean].
  - rewrite updateCluster_stage2 in H by done. bind_inv H. destruct a.
    destruct (clean_rounds _ _ _ Hc Ha) as (ws & _ & _ & _ & Hre & _).
    pose proof Hre as (Hc0 & _).
    eapply reshuffled_trans; [exact Hre|]. apply IH; [done| |done].
    by rewrite (reshuffled_scaleSize _ _ Hre).
  - rewrite updateCluster_stage3 in H by done.
    destruct (0 <? toBeRecover s); [|ret_inv H; by apply reshuffled_refl].
    eapply recoverLoop_reshuffles; [|done|done|exact H].
    intros s1 s2 ???. by apply IH.
Qed.

(** A cleaning pass and the pass it ends with. *)
Lemma clean_pass fuel s ws rest :
  consistent s ->
  total s <= max64 ->
  fits64 (target s) ->
  min64 < target s - total s <= 0 ->
  0 < len (running s) - target s ->
  queue s = ws ++ rest ->
  Z.of_nat (length ws) = len (running s) - target s ->
  exists s',
    updateCluster NewWorker range_order (S (S fuel)) s = Ret tt s' /\
    reshuffled s s' /\
    queue s' = rest /\
    len (running s') = target s /\
    len (cleaning s') = len (cleaning s) + Z.of_nat (length ws) /\
    spawned s' = spawned s ++ map GoDrain ws /\
    (forall w, w ∈ ws -> exists id, cleaning s' !! id = Some w).
Proof.
  intros Hc Htot Hf Hs Hk Hq Hlen.
  pose proof (len_nonneg (starting s)). pose proof (len_nonneg (running s)).
  pose proof (len_nonneg (cleaning s)). pose proof (len_nonneg (destroying s)).
  destruct (toBeClean_total s Htot Hf Hs) as [Hscale Hclean].
  assert (Hclean' : toBeClean (scaleSize s) s = Z.of_nat (length ws)).
  { rewrite Hclean, Hlen. unfold total. lia. }
  destruct (clean_rounds_run ws s rest Hc Hq) as (s1 & Hrun & Hq1).
  destruct (clean_rounds _ _ _ Hc Hrun)
    as (ws' & Hlen' & Hq' & Hsp & Hre & Hr & Hcl & Hall & _).
  assert (ws' = ws).
  { rewrite Hq1, Hq in Hq'. by apply app_inv_tail in Hq'. }
  subst ws'.
  pose proof Hre as (Hc1 & Ht1 & _ & Hst1 & Hde1 & Htot1).
  exists s1. split.
  { rewrite updateCluster_stage2 by (rewrite ?Hclean', ?Hscale; lia).
    rewrite Hclean', Nat2Z.id. erewrite bind_Ret by exact Hrun.
    apply updateCluster_idle.
    - rewrite (reshuffled_scaleSize _ _ Hre), Hscale. lia.
    - destruct (toBeClean_total s1) as [_ ->]; rewrite ?Htot1, ?Ht1; try done.
      rewrite Hcl, Hst1, Hde1. unfold total. lia.
    - unfold toBeRecover. rewrite Ht1, Hst1, Hr.
      unfold total, fits64, min64, max64 in *.
      rewrite (sub64_fits (target s)) by (unfold fits64, min64, max64; lia).
      rewrite sub64_fits by (unfold fits64, min64, max64; lia). lia. }
  split; [done|]. split; [done|]. split; [lia|]. split; [lia|]. done.
Qed.

(** X11. When the pool is consistent, more workers are Running than the
    target asks for and the queue holds at least the surplus,
    reconciliation ends after one cleaning pass and one idle pass:
    exactly |Running| - target workers, the first of the queue, have
    gone to Cleaning with a drain goroutine each, Running is down to the
    target, and Starting and Destroying are as before. *)
Theorem updateCluster_shrinks fuel s :
  consistent s ->
  total s <= max64 ->
  0 <= target s < len (running s) ->
  len (running s) - target s <= Z.of_nat (length (queue s)) ->
  let n := Z.to_nat (len (running s) - target s) in
  exists s',
    updateCluster NewWorker range_order (S (S fuel)) s = Ret tt s' /\
    reshuffled s s' /\
    queue s' = drop n (queue s) /\
    len (running s') = target s /\
    len (cleaning s') = len (cleaning s) + (len (running s) - target s) /\
    spawned s' = spawned s ++ map GoDrain (take n (queue s)) /\
    (forall w, w ∈ take n (queue s) -> exists id, cleaning s' !! id = Some w).
Proof.
  intros Hc Htot Ht Hlen n.
  pose proof (len_nonneg (starting s)). pose proof (len_nonneg (cleaning s)).
  pose proof (len_nonneg (destroying s)).
  assert (Hf : fits64 (target s)).
  { unfold fits64, min64, max64, total in *. lia. }
  assert (Hs : min64 < target s - total s <= 0).
  { unfold min64, max64, total in *. lia. }
  assert (Hq : queue s = take n (queue s) ++ drop n (queue s))
    by (by rewrite take_drop).
  assert (Hn : Z.of_nat (length (take n (queue s))) = len (running s) - target s).
  { rewrite length_take. subst n. lia. }
  destruct (clean_pass fuel s (take n (queue s)) (drop n (queue s))
    Hc Htot Hf Hs ltac:(lia) Hq Hn) as (s' & Hrun & Hre & Hq' & Hr & Hcl & Hsp & Hall).
  exists s'. split; [exact Hrun|]. split; [exact Hre|]. split; [exact Hq'|].
  split; [exact Hr|]. split; [lia|]. split; [exact Hsp|exact Hall].
Qed.

(** X12. [Close] on a consistent pool whose queue holds all the Running
    workers returns with target 0, an empty Running map and an empty
    queue: every Running worker has gone to Cleaning, with a drain
    goroutine each, and Starting and Destroying are as before. *)
Theorem Close_drains_running fuel s :
  consistent s ->
  total s <= max64 ->
  Z.of_nat (length (queue s)) = len (running s) ->
  exists s',
    Close NewWorker range_order (S (S fuel)) s = Ret tt s' /\
    consistent s' /\
    target s' = 0 /\
    running s' = ∅ /\
    queue s' = [] /\
    len (cleaning s') = len (cleaning s) + len (running s) /\
    starting s' = starting s /\ destroying s' = destroying s /\
    spawned s' = spawned s ++ map GoDrain (queue s).
Proof.
  intros Hc Htot Hq.
  pose proof (len_nonneg (starting s)). pose proof (len_nonneg (running s)).
  pose proof (len_nonneg (cleaning s)). pose proof (len_nonneg (destroying s)).
  set (s0 := set_target 0 s).
  assert (Hc0 : consistent s0) by exact Hc.
  assert (Htot0 : total s0 = total s) by done.
  unfold Close, SetTarget, bind at 1, modify. fold s0.
  destruct (decide (len (running s) = 0)) as [Hz|Hnz].
  - assert (Hqn : queue s = []).
    { apply length_zero_iff_nil. lia. }
    assert (Hrn : running s = ∅).
    { apply map_size_empty_inv. unfold len in Hz. lia. }
    exists s0. split.
    { assert (Hf0 : fits64 (target s0)) by (unfold fits64, min64, max64; cbn; lia).
      assert (Hs0 : min64 < target s0 - total s0 <= 0).
      { rewrite Htot0. cbn. unfold min64, max64, total in *. lia. }
      destruct (toBeClean_total s0 Htot Hf0 Hs0) as [Hscale Hclean].
      apply updateCluster_idle.
      - rewrite Hscale. cbn. unfold total in *. lia.
      - rewrite Hclean. cbn. unfold total in *. lia.
      - unfold toBeRecover. cbn. unfold total, max64 in *.
        rewrite (sub64_fits 0) by (unfold fits64, min64, max64; lia).
        rewrite sub64_fits by (unfold fits64, min64, max64; lia). lia. }
    split; [done|]. cbn. rewrite Hqn, Hrn. cbn. rewrite app_nil_r.
    repeat split; try done. rewrite Hrn in Hz. lia.
  - assert (Hf0 : fits64 (target s0)) by (unfold fits64, min64, max64; cbn; lia).
    assert (Hs0 : min64 < target s0 - total s0 <= 0).
    { rewrite Htot0. cbn. unfold min64, max64, total in *. lia. }
    assert (Hk0 : 0 < len (running s0) - target s0) by (cbn; lia).
    assert (Hq0 : queue s0 = queue s ++ []) by (cbn; by rewrite app_nil_r).
    assert (Hl0 : Z.of_nat (length (queue s)) = len (running s0) - target s0)
      by (cbn; lia).
    destruct (clean_pass fuel s0 (queue s) [] Hc0 Htot Hf0 Hs0 Hk0 Hq0 Hl0)
      as (s' & Hrun & Hre & Hq' & Hr & Hcl & Hsp & _).
    + destruct Hre as (Hc' & Ht' & _ & Hst' & Hde' & _).
      exists s'. split; [done|]. split; [done|]. split; [done|]. split.
      { apply map_size_empty_inv. unfold len in Hr. cbn in Hr. lia. }
      split; [done|]. split; [cbn in Hcl; lia|]. by repeat split.
Qed.

(** *** The ends of the goroutines *)

(** X13. The end of the start goroutine, on a consistent pool with room
    in the queue and Starting plus Running at the target: the worker
    leaves Starting for Running, in state RUNNING, is appended to the
    ready queue, and the pass that follows changes nothing; the pool
    stays consistent. *)
Theorem workerReady_joins fuel s w wk :
  consistent s ->
  starting s !! workerId wk = Some w ->
  heap s !! w = Some wk ->
  Z.of_nat (length (queue s)) < Worker_Cap Conf ->
  len (starting s) + len (running s) = target s ->
  total s <= max64 ->
  exists s',
    workerReady Conf (updateCluster NewWorker range_order (S fuel)) w s = Ret tt s' /\
    s' = set_queue (queue s ++ [w]) (move STARTING RUNNING w wk s) /\
    consistent s' /\
    starting s' !! workerId wk = None /\
    running s' !! workerId wk = Some w /\
    heap s' !! w = Some (with_state RUNNING wk) /\
    len (starting s') + len (running s') = target s'.
Proof.
  intros Hc Hst Hw Hcap Htarget Htot.
  pose proof Hc as (Hex & Hkey & Hnd & Hq).
  assert (Hfrom : workers s STARTING !! workerId wk = Some w) by exact Hst.
  pose proof (move_consistent STARTING RUNNING w wk s ltac:(done) ltac:(done)
    Hc Hfrom Hw) as (Hex1 & Hkey1 & Hnd1 & Hq1).
  destruct (move_sizes STARTING RUNNING w wk s ltac:(done) Hex Hfrom)
    as (H1 & H2 & _ & Htot1).
  pose proof (workers_move_lookup STARTING RUNNING w wk s ltac:(done) Hex Hfrom) as Hl.
  set (s1 := move STARTING RUNNING w wk s) in *.
  set (s' := set_queue (queue s ++ [w]) s1).
  assert (Hrun' : running s' !! workerId wk = Some w).
  { change (running s') with (workers s1 RUNNING). by rewrite Hl, !decide_True. }
  assert (Hc' : consistent s').
  { split; [exact Hex1|]. split; [exact Hkey1|]. split.
    - change (queue s') with (queue s ++ [w]). apply NoDup_app.
      split; [done|]. split; [|apply NoDup_singleton].
      intros v Hv Hv'. apply list_elem_of_singleton in Hv' as ->.
      destruct (Hq w Hv) as (wk0 & Hwk0 & Hr0).
      assert (wk0 = wk) by congruence. subst wk0.
      assert (RUNNING = STARTING); [|done].
      apply (Hex (workerId wk)); cbn; eauto.
    - intros v Hv. change (queue s') with (queue s ++ [w]) in Hv.
      apply elem_of_app in Hv as [Hv|Hv]; [by apply Hq1|].
      apply list_elem_of_singleton in Hv as ->.
      exists (with_state RUNNING wk). split; [|done].
      apply list_lookup_insert_eq. by eapply lookup_lt_Some. }
  assert (Hconv : len (starting s') + len (running s') = target s').
  { change (len (workers s1 STARTING) + len (workers s1 RUNNING) = target s).
    rewrite H1, H2. cbn. lia. }
  exists s'. split.
  { unfold workerReady, bind at 1, deref. rewrite Hw.
    unfold bind at 1, modify. fold s1. unfold bind at 1, send.
    change (queue s1) with (queue s). rewrite (proj2 (Z.ltb_lt _ _) Hcap).
    fold s'. apply converged_pass; [done|].
    change (total s') with (total s1). by rewrite Htot1. }
  split; [done|]. split; [done|]. split.
  { change (starting s') with (workers s1 STARTING).
    by rewrite Hl, decide_True, decide_False. }
  split; [done|]. split; [|done].
  apply list_lookup_insert_eq. by eapply lookup_lt_Some.
Qed.

(** With a full queue the start goroutine stops at the send: the worker
    is already in the Running map and no pass is run. *)
Lemma workerReady_full (uc : M unit) s w wk :
  heap s !! w = Some wk ->
  Worker_Cap Conf <= Z.of_nat (length (queue s)) ->
  workerReady Conf uc w s = Blocked (move STARTING RUNNING w wk s).
Proof.
  intros Hw Hcap. unfold workerReady, bind at 1, deref. rewrite Hw.
  unfold bind at 1, modify, bind at 1, send.
  change (queue (move STARTING RUNNING w wk s)) with (queue s).
  by rewrite (proj2 (Z.ltb_ge _ _) Hcap).
Qed.

(** X14. The end of the destroy goroutine, on a consistent pool with
    Starting plus Running at the target: the worker's id leaves the
    Destroying map and is then in none of the four maps; the other
    maps and the queue are untouched, no worker is started, and the
    pool stays consistent. *)
Theorem workerGone_forgets fuel s w wk :
  consistent s ->
  destroying s !! workerId wk = Some w ->
  heap s !! w = Some wk ->
  len (starting s) + len (running s) = target s ->
  total s <= max64 ->
  exists s',
    workerGone (updateCluster NewWorker range_order (S fuel)) w s = Ret tt s' /\
    s' = set_workers DESTROYING (delete (workerId wk) (destroying s)) s /\
    consistent s' /\
    (forall st, workers s' st !! workerId wk = None) /\
    total s' = total s - 1.
Proof.
  intros Hc Hde Hw Htarget Htot.
  pose proof Hc as (Hex & Hkey & Hnd & Hq).
  set (s' := set_workers DESTROYING (delete (workerId wk) (destroying s)) s).
  assert (Hsub : forall st id v, workers s' st !! id = Some v ->
            workers s st !! id = Some v).
  { intros st id v. destruct st; cbn; try done.
    intros Hv. by apply lookup_delete_Some in Hv as [_ ?]. }
  assert (Hc' : consistent s').
  { split; [|split].
    - intros id st st' [x Hx] [y Hy]. apply (Hex id); eauto.
    - intros st id v Hv. by apply Hkey, Hsub.
    - done. }
  assert (Hsize : len (destroying s') = len (destroying s) - 1).
  { cbn. unfold len. rewrite map_size_delete_Some by eauto.
    pose proof (map_size_ne_0_lookup_2 (destroying s) (workerId wk) ltac:(eauto)).
    lia. }
  assert (Htot' : total s' = total s - 1).
  { unfold total. rewrite Hsize. cbn. lia. }
  exists s'. split.
  { unfold workerGone, bind at 1, deref. rewrite Hw.
    unfold bind at 1, modify. fold s'. apply converged_pass; [done|lia]. }
  split; [done|]. split; [done|]. split; [|done].
  intros st. destruct (decide (st = DESTROYING)) as [->|Hne].
  - cbn. apply lookup_delete_eq.
  - destruct (workers s' st !! workerId wk) as [v|] eqn:E; [|done].
    exfalso. apply Hne. apply (Hex (workerId wk)); [|by eauto].
    exists v. by apply Hsub.
Qed.

(** X15. A turn of the drain goroutine for a worker that is still in
    the Cleaning map of a consistent pool: with tasks in flight the
    turn changes nothing and the goroutine sleeps; without, the worker
    goes from Cleaning to Destroying, its destroy goroutine is spawned,
    the other maps and the queue are untouched and the pool stays
    consistent. *)
Theorem drainPoll_in_cleaning s w wk :
  consistent s ->
  cleaning s !! workerId wk = Some w ->
  heap s !! w = Some wk ->
  (0 < numTask wk -> drainPoll w s = Ret DrainSleep s) /\
  (numTask wk <= 0 ->
   exists s',
     drainPoll w s = Ret DrainDestroyed s' /\
     consistent s' /\
     cleaning s' !! workerId wk = None /\
     destroying s' !! workerId wk = Some w /\
     heap s' !! w = Some (with_state DESTROYING wk) /\
     starting s' = starting s /\ running s' = running s /\
     queue s' = queue s /\
     spawned s' = spawned s ++ [GoDestroy w] /\
     total s' = total s).
Proof.
  intros Hc Hcl Hw. split.
  - intros Hn. rewrite (drainPoll_busy w wk s Hw Hn). by rewrite Hcl.
  - intros Hn. rewrite (drainPoll_idle w wk s Hw Hn).
    pose proof Hc as (Hex & _).
    assert (Hfrom : workers s CLEANING !! workerId wk = Some w) by exact Hcl.
    pose proof (move_consistent CLEANING DESTROYING w wk s ltac:(done) ltac:(done)
      Hc Hfrom Hw) as Hc'.
    destruct (move_sizes CLEANING DESTROYING w wk s ltac:(done) Hex Hfrom)
      as (_ & _ & Hkeep & Htot).
    pose proof (workers_move_lookup CLEANING DESTROYING w wk s ltac:(done) Hex Hfrom)
      as Hl.
    eexists. split; [done|]. split; [exact Hc'|]. split.
    { change (workers (move CLEANING DESTROYING w wk s) CLEANING !! workerId wk = None).
      by rewrite Hl, decide_True, decide_False. }
    split.
    { change (workers (move CLEANING DESTROYING w wk s) DESTROYING !! workerId wk
              = Some w).
      by rewrite Hl, !decide_True. }
    split.
    { cbn. apply list_lookup_insert_eq. by eapply lookup_lt_Some. }
    split; [exact (Hkeep STARTING ltac:(done) ltac:(done))|].
    split; [exact (Hkeep RUNNING ltac:(done) ltac:(done))|].
    split; [done|]. split; [done|exact Htot].
Qed.

(** *** Starting workers *)

Lemma startNewWorker_iter_from s n :
  fits64 (nextId s) -> nextId s + Z.of_nat n <= max64 ->
  forall id w,
    starting (Nat.iter n (startNewWorker NewWorker) s) !! id = Some w ->
    starting s !! id = Some w \/
    exists i, (i < n)%nat /\ id = mintedId NewWorker s i /\
      w = (length (heap s) + i)%nat.
Proof.
  intros Hf. induction n as [|n IH]; intros Hn id w Hw; [by left|].
  rewrite startNewWorker_iter_starting in Hw by (done || lia).
  apply lookup_insert_Some in Hw as [[<- <-]|[Hne Hw]].
  - right. exists n. split; [lia|done].
  - destruct (IH ltac:(lia) id w Hw) as [?|(i & Hi & ? & ?)]; [by left|].
    right. exists i. split; [lia|done].
Qed.

Lemma startNewWorker_iter_keeps s n :
  fits64 (nextId s) -> nextId s + Z.of_nat n <= max64 ->
  (forall i, (i < n)%nat -> starting s !! mintedId NewWorker s i = None) ->
  forall id w, starting s !! id = Some w ->
    starting (Nat.iter n (startNewWorker NewWorker) s) !! id = Some w.
Proof.
  intros Hf. induction n as [|n IH]; intros Hn Hfresh id w Hw; [done|].
  rewrite startNewWorker_iter_starting by (done || lia).
  rewrite lookup_insert_ne.
  - apply IH; [lia| |done]. intros i Hi. apply Hfresh. lia.
  - intros <-. rewrite Hfresh in Hw by lia. done.
Qed.

Lemma startNewWorker_iter_consistent s n :
  consistent s ->
  fits64 (nextId s) -> nextId s + Z.of_nat n <= max64 ->
  (forall i st, (i < n)%nat -> workers s st !! mintedId NewWorker s i = None) ->
  consistent (Nat.iter n (startNewWorker NewWorker) s).
Proof.
  intros (Hex & Hkey & Hnd & Hq) Hf Hn Hfresh.
  destruct (startNewWorker_iter_shape NewWorker s n Hf Hn)
    as (_ & Hheap & _ & _ & Hr & Hc & Hd & Hqu).
  pose proof (startNewWorker_iter_from s n Hf Hn) as Hfrom.
  set (sn := Nat.iter n (startNewWorker NewWorker) s) in *.
  assert (Hold : forall l wk, heap s !! l = Some wk -> heap sn !! l = Some wk).
  { intros l wk Hl. rewrite Hheap. by apply lookup_app_l_Some. }
  assert (Hother : forall st, st <> STARTING -> workers sn st = workers s st).
  { intros [] ?; done. }
  assert (Hback : forall st id w, workers sn st !! id = Some w ->
            workers s st !! id = Some w \/
            (st = STARTING /\ exists i, (i < n)%nat /\ id = mintedId NewWorker s i /\
               w = (length (heap s) + i)%nat)).
  { intros st id w Hw. destruct (decide (st = STARTING)) as [->|Hne].
    - destruct (Hfrom id w Hw) as [?|?]; [by left|by right].
    - left. by rewrite <- Hother. }
  split; [|split; [|split]].
  - intros id st st' [x Hx] [y Hy].
    destruct (Hback _ _ _ Hx) as [Hx'|(-> & i & Hi & -> & _)],
             (Hback _ _ _ Hy) as [Hy'|(-> & j & Hj & Hid & _)]; try done.
    + apply (Hex id); by eauto.
    + rewrite Hid, Hfresh in Hx' by done. done.
    + rewrite Hfresh in Hy' by done. done.
  - intros st id w Hw.
    destruct (Hback _ _ _ Hw) as [Hw'|(-> & i & Hi & -> & ->)].
    + destruct (Hkey st id w Hw') as (wk & Hwk & ? & ?).
      exists wk. split; [by apply Hold|done].
    + exists (mintedWorker NewWorker s i). split; [|done].
      rewrite Hheap, lookup_app_r by lia.
      replace (length (heap s) + i - length (heap s))%nat with i by lia.
      by rewrite list_lookup_fmap, lookup_seq_lt.
  - by rewrite Hqu.
  - intros w Hw. rewrite Hqu in Hw. destruct (Hq w Hw) as (wk & Hwk & Hrun).
    exists wk. split; [by apply Hold|]. by rewrite Hr.
Qed.

(** X16. A pass that has workers to start, on a consistent pool, when
    the ids the adapter mints for them are in none of the four maps,
    returns a consistent pool: the new entries of Starting point to new
    records of the minted id in state STARTING, the entries Starting had
    are still there, and Running, Cleaning, Destroying and the queue
    are untouched. *)
Theorem updateCluster_starts_consistent fuel s :
  consistent s ->
  0 < scaleSize s ->
  fits64 (nextId s) ->
  nextId s + scaleSize s <= max64 ->
  (forall i st, (i < Z.to_nat (scaleSize s))%nat ->
     workers s st !! mintedId NewWorker s i = None) ->
  exists s',
    updateCluster NewWorker range_order (S fuel) s = Ret tt s' /\
    consistent s' /\
    (forall id w, starting s !! id = Some w -> starting s' !! id = Some w) /\
    (forall id w, starting s' !! id = Some w ->
       starting s !! id = Some w \/
       heap s !! w = None /\
       exists i, (i < Z.to_nat (scaleSize s))%nat /\ id = mintedId NewWorker s i /\
         heap s' !! w = Some (mintedWorker NewWorker s i)) /\
    running s' = running s /\ cleaning s' = cleaning s /\
    destroying s' = destroying s /\ queue s' = queue s.
Proof.
  intros Hc Hs Hf Hn Hfresh.
  set (n := Z.to_nat (scaleSize s)) in *.
  assert (Hn' : nextId s + Z.of_nat n <= max64) by (subst n; lia).
  destruct (startNewWorker_iter_shape NewWorker s n Hf Hn')
    as (_ & Hheap & _ & _ & Hr & Hcl & Hd & Hqu).
  exists (Nat.iter n (startNewWorker NewWorker) s).
  split; [by apply updateCluster_stage1|].
  split; [by apply startNewWorker_iter_consistent|].
  split.
  { apply startNewWorker_iter_keeps; [done|done|].
    intros i Hi. exact (Hfresh i STARTING Hi). }
  split; [|done].
  intros id w Hw.
  destruct (startNewWorker_iter_from s n Hf Hn' id w Hw) as [?|(i & Hi & -> & ->)];
    [by left|].
  right. split; [apply lookup_ge_None; lia|].
  exists i. split; [done|]. split; [done|].
  rewrite Hheap, lookup_app_r by lia.
  replace (length (heap s) + i - length (heap s))%nat with i by lia.
  by rewrite list_lookup_fmap, lookup_seq_lt.
Qed.

(** *** Dispatching *)

(** X17. Without the scaling policy a dispatch that returns keeps the
    pool consistent: the queue still holds distinct workers that the
    Running map lists, and the record the counters were written to
    still carries its id and state. *)
Theorem RunLambda_consistent fuel env w s d s' :
  Scaling Conf <> "auto" ->
  consistent s ->
  RunLambda Conf NewWorker scale_rule range_order fuel env w s = Ret d s' ->
  consistent s'.
Proof.
  intros Hm Hc H.
  apply RunLambda_Ret in H as [(w1 & _ & -> & ->)|
    (w1 & worker & s1 & s2 & _ & Hacq & Hscale & Hresp & Hrel)]; [done|].
  rewrite decide_False in Hscale by done. subst s2.
  apply acquire_Ret in Hacq as (wk & rest & Hq & Hw & ->).
  apply release_Ret in Hrel as (wk2 & Hw2 & ->).
  assert (Hlt : (worker < length (heap s))%nat) by (by eapply lookup_lt_Some).
  cbn in Hw2. rewrite list_lookup_insert_eq in Hw2 by done. injection Hw2 as <-.
  destruct Hc as (Hex & Hkey & Hnd & Hqd).
  assert (Hheap : forall l wk0, heap s !! l = Some wk0 ->
    exists wk', <[worker := with_numTask
        (add32 (numTask (with_numTask (add32 (numTask wk) 1) wk)) (-1))
        (with_numTask (add32 (numTask wk) 1) wk)]>
      (<[worker := with_numTask (add32 (numTask wk) 1) wk]> (heap s)) !! l = Some wk' /\
      workerId wk' = workerId wk0 /\ state wk' = state wk0).
  { intros l wk0 Hl. rewrite list_insert_insert_eq.
    destruct (decide (l = worker)) as [->|Hne].
    - rewrite list_lookup_insert_eq by done. eexists. split; [done|].
      assert (wk0 = wk) by congruence. by subst.
    - rewrite list_lookup_insert_ne by done. by exists wk0. }
  split; [exact Hex|]. split; [|split].
  - intros st id v Hv.
    destruct (Hkey st id v Hv) as (wk0 & Hwk0 & Hid & Hst).
    destruct (Hheap v wk0 Hwk0) as (wk' & Hwk' & Hid' & Hst').
    exists wk'. split; [exact Hwk'|]. split; congruence.
  - change (NoDup (rest ++ [worker])). rewrite Hq in Hnd.
    apply NoDup_cons in Hnd as [Hnin Hnd]. apply NoDup_app.
    split; [done|]. split; [|apply NoDup_singleton].
    intros x Hx Hx'. apply list_elem_of_singleton in Hx' as ->. done.
  - intros v Hv. change (v ∈ rest ++ [worker]) in Hv.
    assert (Hin : v ∈ queue s).
    { rewrite Hq. apply elem_of_app in Hv as [Hv|Hv]; [by right|].
      apply list_elem_of_singleton in Hv as ->. by left. }
    destruct (Hqd v Hin) as (wk0 & Hwk0 & Hrun).
    destruct (Hheap v wk0 Hwk0) as (wk' & Hwk' & Hid' & _).
    exists wk'. split; [exact Hwk'|]. rewrite Hid'. exact Hrun.
Qed.

(** *** The task report, key by key *)

(** X18. When every map entry points to a record the report is made,
    and key by key it is this: an id listed in a state map shows the
    [numTask] of the worker in the last of Starting, Running, Cleaning,
    Destroying that lists it, also when the id is one of the two report
    keys; otherwise "total tasks" shows the task counter, "task/worker"
    the quotient, with the sum and the count as Go's int computes them,
    and no other key is in the report. *)
Theorem StatusTasks_shows s :
  (forall st, closed s (workers s st)) ->
  exists out,
    StatusTasks s = Some out /\
    forall key, out !! key =
      match shownWorker s key with
      | Some w => numTaskAt s w
      | None =>
          if decide (key = "total tasks") then Some (totalTask s)
          else if decide (key = "task/worker") then
            Some (let numWorker := add64 (len (running s)) (len (starting s)) in
                  if 0 <? numWorker
                  then Z.quot (wrap 64 (sumNumTask s (running s))) numWorker
                  else 0)
          else None
      end.
Proof.
  intros Hc.
  assert (HcS : closed s (starting s)) by apply (Hc STARTING).
  assert (HcR : closed s (running s)) by apply (Hc RUNNING).
  assert (HcC : closed s (cleaning s)) by apply (Hc CLEANING).
  assert (HcD : closed s (destroying s)) by apply (Hc DESTROYING).
  unfold StatusTasks. cbn zeta.
  set (n := add64 (len (running s)) (len (starting s))).
  set (base := <["total tasks" := totalTask s]> (<["task/worker" := 0]> ∅)
    : gmap string Z).
  set (out0 := if 0 <? n
               then <["task/worker" := Z.quot (wrap 64 (sumNumTask s (running s))) n]> base
               else base).
  assert (Hfirst : (if 0 <? n
      then sumTask ← sumTasks s (running s);
           Some (<["task/worker" := Z.quot sumTask n]> base)
      else Some base) = Some out0).
  { subst out0. destruct (0 <? n); [|done]. by rewrite (sumTasks_wrap _ _ HcR). }
  rewrite Hfirst. cbn [mbind option_bind foldl workers].
  destruct (reportWorkers_lookup s (starting s) out0 HcS) as (o1 & -> & H1).
  destruct (reportWorkers_lookup s (running s) o1 HcR) as (o2 & -> & H2).
  destruct (reportWorkers_lookup s (cleaning s) o2 HcC) as (o3 & -> & H3).
  destruct (reportWorkers_lookup s (destroying s) o3 HcD) as (o4 & -> & H4).
  exists o4. split; [done|]. intros key.
  rewrite H4, H3, H2, H1. unfold shownWorker.
  destruct (destroying s !! key); [done|].
  destruct (cleaning s !! key); [done|].
  destruct (running s !! key); [done|].
  destruct (starting s !! key); [done|].
  subst out0 base.
  destruct (decide (key = "total tasks")) as [->|Ht].
  { destruct (0 <? n); by simplify_map_eq. }
  destruct (decide (key = "task/worker")) as [->|Hw].
  { destruct (0 <? n); by simplify_map_eq. }
  destruct (0 <? n); by simplify_map_eq.
Qed.

End Invariant.

(** * Concrete runs of the further properties *)

(** Two failures and a success: three commands, ten seconds asleep. *)
Lemma runCmd_retries_witness :
  let r := runCmd (Some "/root/open-lambda"%string) (Some "ubuntu"%string)
             ssh_third worker1 "./ol worker up" in
  length (calls r) = 3%nat /\
  slept r = 5 * (Z.of_nat (length (calls r)) - 1) /\
  panicked r = false.
Proof.
  intros r.
  destruct (runCmd_retries "/root/open-lambda" "ubuntu" ssh_third worker1
    "./ol worker up") as (_ & _ & Hslept & _).
  split; [reflexivity|]. split; [exact Hslept|reflexivity].
Defined.

Lemma Invoke_bad_request_witness :
  status (Invoke echoLambda "/run/" newResponse) = Some 400 /\
  Invoke echoLambda "/run/echo" newResponse = echoLambda "echo" newResponse.
Proof.
  destruct (Invoke_bad_request echoLambda "/run/" newResponse) as [Hbad _].
  destruct (Invoke_bad_request echoLambda "/run/echo" newResponse) as [_ Hgood].
  split.
  - rewrite Hbad by reflexivity. reflexivity.
  - destruct (Hgood ltac:(vm_compute; discriminate)) as (img & Himg & _ & Hrun).
    vm_compute in Himg. injection Himg as <-. exact Hrun.
Defined.

Lemma updateCluster_converged_witness :
  updateCluster mockWorker keyOrder 1 pool_one = Ret tt pool_one /\
  SetTarget mockWorker keyOrder 1 1 pool_one = Ret tt pool_one.
Proof.
  apply (updateCluster_converged mockWorker keyOrder 0 pool_one).
  - reflexivity.
  - vm_compute. discriminate.
Defined.

Lemma NewWorkerPool_auto_witness :
  NewWorkerPool conf_auto_mock mockWorker keyOrder 1 0 = Ret tt pool_starting.
Proof.
  assert (Hp : Platform conf_auto_mock ∈ ["gcp"; "azure"; "DO"; "mock"]%string)
    by (apply (bool_decide_eq_true_1 _); vm_compute; reflexivity).
  assert (Hcap : 0 <= Worker_Cap conf_auto_mock) by (vm_compute; discriminate).
  destruct (NewWorkerPool_auto conf_auto_mock mockWorker keyOrder 0 0 Hp Hcap
    eq_refl) as (s & Hrun & _).
  rewrite Hrun. vm_compute in Hrun. injection Hrun as <-. reflexivity.
Defined.

Lemma NewWorkerPool_misconfigured_witness :
  NewWorkerPool conf_unknown mockWorker keyOrder 1 0 = Panic (newPool 0).
Proof.
  apply NewWorkerPool_misconfigured. left.
  apply (bool_decide_eq_false_1 _). vm_compute. reflexivity.
Defined.

Lemma RunLambda_latency_witness :
  exists d s',
    RunLambda conf_manual_mock mockWorker rule_one keyOrder 0 env_up newResponse
      pool_one = Ret d s' /\
    selected d = Some 0%nat /\
    sumLatency s' = 5 /\ nLatency s' = 1.
Proof.
  eassert (Hrun : RunLambda conf_manual_mock mockWorker rule_one keyOrder 0 env_up
    newResponse pool_one = Ret _ _) by (vm_compute; reflexivity).
  pose proof (RunLambda_latency _ _ _ _ _ _ _ _ _ _ Hrun) as Hl.
  eexists. eexists. split; [exact Hrun|]. split; [reflexivity|exact Hl].
Defined.

Lemma RunLambda_status_witness :
  exists d s',
    RunLambda conf_manual_gcp mockWorker rule_one keyOrder 0 env_down newResponse
      pool_one = Ret d s' /\
    forwardedTo d = Some "10.0.0.1"%string /\
    status (resp d) = Some 502.
Proof.
  eassert (Hrun : RunLambda conf_manual_gcp mockWorker rule_one keyOrder 0 env_down
    newResponse pool_one = Ret _ _) by (vm_compute; reflexivity).
  destruct (RunLambda_status _ _ _ _ _ _ _ _ _ Hrun) as [_ Hs].
  destruct (Hs ltac:(vm_compute; discriminate)) as [_ Hst].
  eexists. eexists. split; [exact Hrun|]. split; [reflexivity|exact Hst].
Defined.

Lemma RunLambda_leaves_pool_witness :
  exists d s',
    RunLambda conf_manual_gcp mockWorker rule_one keyOrder 0 env_down newResponse
      pool_one = Ret d s' /\
    running s' = running pool_one /\ target s' = 1 /\
    exists wk', heap s' !! 0%nat = Some wk' /\ state wk' = RUNNING.
Proof.
  eassert (Hrun : RunLambda conf_manual_gcp mockWorker rule_one keyOrder 0 env_down
    newResponse pool_one = Ret _ _) by (vm_compute; reflexivity).
  assert (Hm : Scaling conf_manual_gcp <> "auto"%string) by discriminate.
  destruct (RunLambda_leaves_pool _ _ _ _ _ _ _ _ _ _ Hm Hrun)
    as (Hmaps & Ht & _ & _ & _ & Hheap).
  destruct (Hheap 0%nat worker1 eq_refl) as (wk' & Hwk' & _ & _ & Hst).
  eexists. eexists. split; [exact Hrun|]. split; [exact (Hmaps RUNNING)|].
  split; [exact Ht|]. exists wk'. split; [exact Hwk'|exact Hst].
Defined.

Lemma updateCluster_reshuffles_witness :
  exists s',
    updateCluster mockWorker keyOrder 2 pool_two = Ret tt s' /\
    reshuffled pool_two s'.
Proof.
  eassert (Hrun : updateCluster mockWorker keyOrder 2 pool_two = Ret tt _)
    by (vm_compute; reflexivity).
  assert (Hc : consistent pool_two) by (apply consistentb_sound; vm_compute; reflexivity).
  assert (Hs : scaleSize pool_two <= 0) by (vm_compute; discriminate).
  eexists. split; [exact Hrun|].
  exact (updateCluster_reshuffles _ _ _ _ _ Hc Hs Hrun).
Defined.

Lemma updateCluster_shrinks_witness :
  exists s',
    updateCluster mockWorker keyOrder 2 pool_two = Ret tt s' /\
    queue s' = [1%nat] /\ len (running s') = 1 /\ len (cleaning s') = 1 /\
    spawned s' = [GoDrain 0%nat].
Proof.
  assert (Hc : consistent pool_two) by (apply consistentb_sound; vm_compute; reflexivity).
  assert (H1 : total pool_two <= max64) by (vm_compute; discriminate).
  assert (H2 : 0 <= target pool_two < len (running pool_two))
    by (vm_compute; split; [discriminate|reflexivity]).
  assert (H3 : len (running pool_two) - target pool_two
               <= Z.of_nat (length (queue pool_two))) by (vm_compute; discriminate).
  destruct (updateCluster_shrinks mockWorker keyOrder 0 pool_two Hc H1 H2 H3)
    as (s' & Hrun & _ & Hq & Hr & Hcl & Hsp & _).
  exists s'. split; [exact Hrun|]. split; [exact Hq|]. split; [exact Hr|].
  split; [exact Hcl|exact Hsp].
Defined.

Lemma Close_drains_running_witness :
  exists s',
    Close mockWorker keyOrder 2 pool_three = Ret tt s' /\
    target s' = 0 /\ running s' = ∅ /\ queue s' = [] /\
    len (cleaning s') = 3 /\
    spawned s' = [GoDrain 0%nat; GoDrain 1%nat; GoDrain 2%nat].
Proof.
  assert (Hc : consistent pool_three)
    by (apply consistentb_sound; vm_compute; reflexivity).
  assert (H1 : total pool_three <= max64) by (vm_compute; discriminate).
  assert (H2 : Z.of_nat (length (queue pool_three)) = len (running pool_three))
    by reflexivity.
  destruct (Close_drains_running mockWorker keyOrder 0 pool_three Hc H1 H2)
    as (s' & Hrun & _ & Ht & Hr & Hq & Hcl & _ & _ & Hsp).
  exists s'. split; [exact Hrun|]. split; [exact Ht|]. split; [exact Hr|].
  split; [exact Hq|]. split; [exact Hcl|exact Hsp].
Defined.

Lemma workerReady_joins_witness :
  exists s',
    workerReady conf_manual_mock (updateCluster mockWorker keyOrder 1) 0%nat
      pool_starting = Ret tt s' /\
    consistent s' /\
    starting s' !! "worker-1" = None /\
    running s' !! "worker-1" = Some 0%nat /\
    queue s' = [0%nat].
Proof.
  assert (Hc : consistent pool_starting)
    by (apply consistentb_sound; vm_compute; reflexivity).
  assert (H1 : starting pool_starting !! workerId (with_state STARTING (mockWorker 1))
               = Some 0%nat) by (vm_compute; reflexivity).
  assert (H2 : heap pool_starting !! 0%nat = Some (with_state STARTING (mockWorker 1)))
    by reflexivity.
  assert (H3 : Z.of_nat (length (queue pool_starting)) < Worker_Cap conf_manual_mock)
    by reflexivity.
  assert (H4 : len (starting pool_starting) + len (running pool_starting)
               = target pool_starting) by reflexivity.
  assert (H5 : total pool_starting <= max64) by (vm_compute; discriminate).
  destruct (workerReady_joins conf_manual_mock mockWorker keyOrder 0 pool_starting
    0%nat _ Hc H1 H2 H3 H4 H5) as (s' & Hrun & Hs' & Hc' & Hst & Hr & _).
  exists s'. split; [exact Hrun|]. split; [exact Hc'|].
  split; [exact Hst|]. split; [exact Hr|]. rewrite Hs'. reflexivity.
Defined.

Lemma workerGone_forgets_witness :
  exists s',
    workerGone (updateCluster mockWorker keyOrder 1) 0%nat pool_destroying
      = Ret tt s' /\
    consistent s' /\
    (forall st, workers s' st !! "worker-1" = None) /\
    total s' = 0.
Proof.
  assert (Hc : consistent pool_destroying)
    by (apply consistentb_sound; vm_compute; reflexivity).
  assert (H1 : destroying pool_destroying
                 !! workerId (with_state DESTROYING (with_numTask 0 worker1))
               = Some 0%nat) by (vm_compute; reflexivity).
  assert (H2 : heap pool_destroying !! 0%nat
               = Some (with_state DESTROYING (with_numTask 0 worker1))) by reflexivity.
  assert (H3 : len (starting pool_destroying) + len (running pool_destroying)
               = target pool_destroying) by reflexivity.
  assert (H4 : total pool_destroying <= max64) by (vm_compute; discriminate).
  destruct (workerGone_forgets mockWorker keyOrder 0 pool_destroying 0%nat _
    Hc H1 H2 H3 H4) as (s' & Hrun & _ & Hc' & Hnone & Htot).
  exists s'. split; [exact Hrun|]. split; [exact Hc'|].
  split; [exact Hnone|exact Htot].
Defined.

Lemma drainPoll_in_cleaning_witness :
  exists s',
    drainPoll 0%nat pool_cleaning = Ret DrainDestroyed s' /\
    consistent s' /\
    cleaning s' !! "worker-1" = None /\
    destroying s' !! "worker-1" = Some 0%nat /\
    spawned s' = [GoDrain 0%nat; GoDestroy 0%nat].
Proof.
  assert (Hc : consistent pool_cleaning)
    by (apply consistentb_sound; vm_compute; reflexivity).
  assert (H1 : cleaning pool_cleaning
                 !! workerId (with_state CLEANING (with_numTask 0 worker1))
               = Some 0%nat) by (vm_compute; reflexivity).
  assert (H2 : heap pool_cleaning !! 0%nat
               = Some (with_state CLEANING (with_numTask 0 worker1))) by reflexivity.
  destruct (drainPoll_in_cleaning pool_cleaning 0%nat _ Hc H1 H2) as [_ Hidle].
  destruct (Hidle ltac:(vm_compute; discriminate))
    as (s' & Hrun & Hc' & Hcl & Hde & _ & _ & _ & _ & Hsp & _).
  exists s'. split; [exact Hrun|]. split; [exact Hc'|].
  split; [exact Hcl|]. split; [exact Hde|exact Hsp].
Defined.

Lemma updateCluster_starts_consistent_witness :
  exists s',
    updateCluster mockWorker keyOrder 1 pool_empty = Ret tt s' /\
    consistent s' /\ running s' = ∅ /\ queue s' = [].
Proof.
  assert (Hc : consistent pool_empty)
    by (apply consistentb_sound; vm_compute; reflexivity).
  assert (H1 : 0 < scaleSize pool_empty) by reflexivity.
  assert (H2 : fits64 (nextId pool_empty)) by (vm_compute; split; discriminate).
  assert (H3 : nextId pool_empty + scaleSize pool_empty <= max64)
    by (vm_compute; discriminate).
  assert (H4 : forall i st, (i < Z.to_nat (scaleSize pool_empty))%nat ->
    workers pool_empty st !! mintedId mockWorker pool_empty i = None).
  { intros i [] _; apply lookup_empty. }
  destruct (updateCluster_starts_consistent mockWorker keyOrder 0 pool_empty
    Hc H1 H2 H3 H4) as (s' & Hrun & Hc' & _ & _ & Hr & _ & _ & Hq).
  exists s'. split; [exact Hrun|]. split; [exact Hc'|]. split; [exact Hr|exact Hq].
Defined.

Lemma RunLambda_consistent_witness :
  exists d s',
    RunLambda conf_manual_mock mockWorker rule_one keyOrder 0 env_up newResponse
      pool_three = Ret d s' /\
    queue s' = [1%nat; 2%nat; 0%nat] /\
    consistent s'.
Proof.
  eassert (Hrun : RunLambda conf_manual_mock mockWorker rule_one keyOrder 0 env_up
    newResponse pool_three = Ret _ _) by (vm_compute; reflexivity).
  assert (Hm : Scaling conf_manual_mock <> "auto"%string) by discriminate.
  assert (Hc : consistent pool_three)
    by (apply consistentb_sound; vm_compute; reflexivity).
  eexists. eexists. split; [exact Hrun|]. split; [reflexivity|].
  exact (RunLambda_consistent _ _ _ _ _ _ _ _ _ _ Hm Hc Hrun).
Defined.

Lemma StatusTasks_shows_witness :
  exists out,
    StatusTasks pool_two = Some out /\
    out !! "worker-1" = Some 3 /\
    out !! "task/worker" = Some 1 /\
    out !! "worker-9" = None.
Proof.
  assert (Hc : forall st, closed pool_two (workers pool_two st)).
  { intros st id w Hw.
    assert (Hk : consistent pool_two)
      by (apply consistentb_sound; vm_compute; reflexivity).
    destruct Hk as (_ & Hkey & _).
    destruct (Hkey st id w Hw) as (wk & Hwk & _). by exists wk. }
  destruct (StatusTasks_shows pool_two Hc) as (out & Hrun & Hout).
  exists out. split; [exact Hrun|].
  split; [rewrite Hout; vm_compute; reflexivity|].
  split; [rewrite Hout; vm_compute; reflexivity|].
  rewrite Hout. vm_compute. reflexivity.
Defined.
